(** * TreeFractal: the block map, its line rasteriser and the recursive tree

    A shallow embedding of [src/Fractals/TreeFractal.js] (compiled from the
    TypeScript source of the same repository).

    Conventions of the embedding.
    - JavaScript numbers that hold integers (coordinates, array lengths,
      thickness, depth, whole degrees) are [Z].
    - The error accumulator [err] of [drawLine] is a half-integer in the
      source ([... / 2] is a floating-point division): it is a [Q].
    - An [Array] is an object with a [length] and a finite set of keyed
      properties: a record of a [Z] and a [gmap Z A].  Reading a missing key
      yields [undefined], which is [None].
    - [throw] and running off [undefined] are results of the [outcome] type.
    - The trigonometry of [drawTree] is floating point; it is taken as a
      parameter of the development (Section [Tree]).  [Math.random] is an
      oracle that hands out rationals, indexed by the number of draws so
      far.

    Where the embedding is exact.
    - [drawLine] computes on [Z] and [Q] without rounding; the program
      computes on doubles.  The two agree for end points of magnitude up to
      [2^50] ([drawLine_double_exact]); from [2^53] on they differ, and the
      loop of the program need not end ([drawLine_never_returns]).
      [drawLine_double_run] is the loop with every operation rounded.
    - [random], [branch_color] and [drawTree] multiply a draw exactly; the
      program rounds the product to a double, which can change the floor
      ([random_color_rounds]).  [random_color], [random_double] and
      [drawTree_double] round the product.
    - [round] of the interface [Floating] stands for [Math.round] on a
      finite number whose nearest integer is exact as a double; NaN and the
      infinities are outside the embedding.
    - The fuel of [drawTree] counts the calls that pass the test
      [depth > 0]; the calls with [depth <= 0], at which the recursion of
      the program ends, cost none. *)

From Stdlib Require Import ZArith QArith Qround Qabs Qpower Qfield.
From Stdlib Require Import List String Ascii Bool Lia.
From stdpp Require Import base gmap.
Import ListNotations.

Local Open Scope Z_scope.

(** ** Outcomes of a JavaScript computation *)

Inductive error : Type :=
| RangeError (msg : string)
| TypeError.

Inductive outcome (A : Type) : Type :=
| Ok (a : A)
| Throw (e : error)
| OutOfFuel.

Arguments Ok {A} a.
Arguments Throw {A} e.
Arguments OutOfFuel {A}.

Definition bind {A B : Type} (k : A -> outcome B) (o : outcome A) : outcome B :=
  match o with
  | Ok a => k a
  | Throw e => Throw e
  | OutOfFuel => OutOfFuel
  end.

#[export] Instance outcome_bind : MBind outcome := @bind.
#[export] Instance outcome_ret : MRet outcome := @Ok.

(** ** Block *)

Record Block : Type := mkBlock { color : string; thickness : Z }.

(** ** JavaScript arrays *)

Module JS.

Record Array (A : Type) : Type := mkArray {
  length : Z;
  elems : gmap Z A
}.
Arguments mkArray {A} _ _.
Arguments length {A} _.
Arguments elems {A} _.

(** [new Array(n)]: an array of length [n] with no element; a length
    outside [0 .. 2^32 - 1] is a RangeError. *)
Definition new_Array {A : Type} (n : Z) : outcome (Array A) :=
  if (0 <=? n) && (n <? 2 ^ 32)
  then Ok (mkArray n ∅)
  else Throw (RangeError "Invalid array length").

(** [a[k]] *)
Definition get {A : Type} (a : Array A) (k : Z) : option A :=
  elems a !! k.

(** [a[k] = v]: an array index at or past the length extends it; any other
    integer key (a negative one) is an ordinary property. *)
Definition set {A : Type} (a : Array A) (k : Z) (v : A) : Array A :=
  mkArray
    (if (0 <=? k) && (k <? 2 ^ 32 - 1)
     then Z.max (length a) (k + 1) else length a)
    (<[k := v]> (elems a)).

(** [o.length] where [o] may be [undefined]. *)
Definition length_of {A : Type} (o : option (Array A)) : outcome Z :=
  match o with
  | Some a => Ok (length a)
  | None => Throw TypeError
  end.

(** [o[k]] where [o] may be [undefined]. *)
Definition get_of {A : Type} (o : option (Array A)) (k : Z)
  : outcome (option A) :=
  match o with
  | Some a => Ok (get a k)
  | None => Throw TypeError
  end.

(** [o[k] = v] where [o] may be [undefined]. *)
Definition set_of {A : Type} (o : option (Array A)) (k : Z) (v : A)
  : outcome (Array A) :=
  match o with
  | Some a => Ok (set a k v)
  | None => Throw TypeError
  end.

(** Truthiness of a value that is an object or [undefined]. *)
Definition truthy {A : Type} (o : option A) : bool :=
  match o with Some _ => true | None => false end.

End JS.

(** ** BlockMap *)

Record BlockMap : Type := mkBlockMap { map : JS.Array (JS.Array Block) }.

(** The constructor's loop
    [for (i = 0; i < this.map.length; i++) this.map[i] = new Array(height)],
    with [n] the number of iterations left. *)
Fixpoint fill_columns (n : nat) (i height : Z) (m : JS.Array (JS.Array Block))
  : outcome (JS.Array (JS.Array Block)) :=
  match n with
  | O => Ok m
  | S n' =>
      col ← JS.new_Array height;
      fill_columns n' (i + 1) height (JS.set m i col)
  end.

Definition newBlockMap (width height : Z) : outcome BlockMap :=
  m ← JS.new_Array width;
  m' ← fill_columns (Z.to_nat (JS.length m)) 0 height m;
  Ok (mkBlockMap m').

(** The default value of the [color] parameter. *)
Definition default_color (c : option string) : string :=
  match c with
  | Some s => s
  | None => "#000000"%string
  end.

(** [this.map[x][y] = new Block(color, thickness)] updates the column object
    that [this.map[x]] refers to; no other reference to that column exists,
    so the update is the map with the new column at key [x]. *)
Definition setBlock (this : BlockMap) (x y thickness : Z) (color : option string)
  : outcome BlockMap :=
  let color := default_color color in
  if x <? JS.length (map this) then
    if JS.truthy (JS.get (map this) x) then
      len ← JS.length_of (JS.get (map this) x);
      if y <? len then
        col ← JS.set_of (JS.get (map this) x) y (mkBlock color thickness);
        Ok (mkBlockMap (JS.set (map this) x col))
      else Ok this
    else Ok this
  else Ok this.

Definition getBlock (this : BlockMap) (x y : Z) : outcome (option Block) :=
  if x <=? JS.length (map this) then
    len ← JS.length_of (JS.get (map this) x);
    if y <=? len then
      JS.get_of (JS.get (map this) x) y
    else Throw (RangeError "y is out of bounds")
  else Throw (RangeError "x is out of bounds").

(** ** drawLine *)

(** [a < b] on JavaScript numbers that need not be integers. *)
Definition Qltb (a b : Q) : bool := negb (Qle_bool b a).

(** The [while] loop of [drawLine].  [fuel] bounds the number of executions
    of the body.  Next to the map the loop returns the positions it handed
    to [setBlock], in order. *)
Fixpoint drawLine_loop (fuel : nat) (this : BlockMap)
    (x0 x1 y0 y1 dx dy sx sy : Z) (err : Q) (thickness : Z) (color : string)
  : outcome (BlockMap * list (Z * Z)) :=
  if negb ((x0 =? x1) && (y0 =? y1)) then
    match fuel with
    | O => OutOfFuel
    | S fuel' =>
        this' ← setBlock this x0 y0 thickness (Some color);
        let e2 := err in
        let '(err, x0') :=
          if Qltb (inject_Z (- dx)) e2
          then ((err - inject_Z dy)%Q, x0 + sx) else (err, x0) in
        let '(err, y0') :=
          if Qltb e2 (inject_Z dy)
          then ((err + inject_Z dx)%Q, y0 + sy) else (err, y0) in
        r ← drawLine_loop fuel' this' x0' x1 y0' y1 dx dy sx sy err
              thickness color;
        Ok (fst r, (x0, y0) :: snd r)
    end
  else Ok (this, []).

(** [drawLine] up to its loop, run with [fuel]. *)
Definition drawLine_run (fuel : nat) (this : BlockMap) (x0 x1 y0 y1 : Z)
    (thickness : Z) (color : option string)
  : outcome (BlockMap * list (Z * Z)) :=
  let color := default_color color in
  let dx := Z.abs (x1 - x0) in
  let sx := if x0 <? x1 then 1 else -1 in
  let dy := Z.abs (y1 - y0) in
  let sy := if y0 <? y1 then 1 else -1 in
  let err := ((if dx >? dy then inject_Z dx else inject_Z (- dy)) / 2)%Q in
  drawLine_loop fuel this x0 x1 y0 y1 dx dy sx sy err thickness color.

(** The number of executions of the loop body that [drawLine] needs
    (see [drawLine_run_fuel]). *)
Definition line_steps (x0 x1 y0 y1 : Z) : nat :=
  Z.to_nat (Z.max (Z.abs (x1 - x0)) (Z.abs (y1 - y0))).

Definition drawLine (this : BlockMap) (x0 x1 y0 y1 : Z)
    (thickness : Z) (color : option string) : outcome BlockMap :=
  r ← drawLine_run (line_steps x0 x1 y0 y1) this x0 x1 y0 y1 thickness color;
  Ok (fst r).

(** The positions [drawLine] hands to [setBlock], in order. *)
Definition drawLine_cells (this : BlockMap) (x0 x1 y0 y1 : Z)
    (thickness : Z) (color : option string) : outcome (list (Z * Z)) :=
  r ← drawLine_run (line_steps x0 x1 y0 y1) this x0 x1 y0 y1 thickness color;
  Ok (snd r).

(** ** Number formatting and truncation *)

Definition hex_digit (d : Z) : ascii :=
  match d with
  | 0 => "0" | 1 => "1" | 2 => "2" | 3 => "3" | 4 => "4" | 5 => "5"
  | 6 => "6" | 7 => "7" | 8 => "8" | 9 => "9" | 10 => "a" | 11 => "b"
  | 12 => "c" | 13 => "d" | 14 => "e" | _ => "f"
  end%char.

Fixpoint hex_digits (fuel : nat) (n : Z) (acc : string) : string :=
  match fuel with
  | O => acc
  | S fuel' =>
      let acc' := String (hex_digit (n mod 16)) acc in
      if n / 16 =? 0 then acc' else hex_digits fuel' (n / 16) acc'
  end.

(** [n.toString(16)] for an integer [n]: no padding, lower case, a minus
    sign for a negative number. *)
Definition toString16 (n : Z) : string :=
  if n <? 0
  then ("-" ++ hex_digits (S (Z.to_nat (Z.log2 (- n)))) (- n) EmptyString)%string
  else hex_digits (S (Z.to_nat (Z.log2 n))) n EmptyString.

(** Truncation toward zero, then the wrap-around of ToInt32: [v << 0]. *)
Definition trunc (q : Q) : Z :=
  if Qle_bool 0 q then Qfloor q else Qceiling q.

Definition shl0 (q : Q) : Z :=
  (trunc q + 2 ^ 31) mod 2 ^ 32 - 2 ^ 31.

(** ** FractalTree *)

(** The floating-point operations [drawTree] uses on coordinates. *)
Class Floating : Type := {
  number : Type;
  of_Z : Z -> number;
  add : number -> number -> number;
  mul : number -> number -> number;
  cos : number -> number;
  sin : number -> number;
  round : number -> Z;      (* Math.round, on a finite number *)
  PI_over_180 : number      (* Math.PI / 180.0 *)
}.

(** One call of [drawLine] made by [drawTree]: the depth of the [drawTree]
    call that made it, and the arguments it passed. *)
Record LineCall : Type := mkLineCall {
  lc_depth : Z;
  lc_x0 : Z; lc_x1 : Z; lc_y0 : Z; lc_y1 : Z;
  lc_thickness : Z;
  lc_color : string
}.

(** What [drawTree] acts on: the map of the tree, the number of
    [Math.random()] draws made so far, and the [drawLine] calls made so
    far, latest first. *)
Record TreeState : Type := mkTreeState {
  tree_map : BlockMap;
  draws : nat;
  lines : list LineCall
}.

Section Tree.

Context {F : Floating}.

(** [rand i] is the value of the [i]-th call of [Math.random()]. *)
Variable rand : nat -> Q.

Definition Math_random (s : TreeState) : Q * TreeState :=
  (rand (draws s), mkTreeState (tree_map s) (S (draws s)) (lines s)).

Definition random (min max : Z) (s : TreeState) : Z * TreeState :=
  let '(r, s) := Math_random s in
  (Qfloor (r * inject_Z (max - min + 1)) + min, s).

Definition deg2Rad : number := PI_over_180.

Fixpoint drawTree (fuel : nat) (x1 y1 : number) (angle depth : Z)
    (s : TreeState) : outcome TreeState :=
  if depth >? 0 then
    match fuel with
    | O => OutOfFuel
    | S fuel' =>
        let x2 :=
          add x1 (mul (mul (cos (mul (of_Z angle) deg2Rad)) (of_Z depth))
                      (of_Z 10)) in
        let y2 :=
          add y1 (mul (mul (sin (mul (of_Z angle) deg2Rad)) (of_Z depth))
                      (of_Z 10)) in
        let '(color, s) :=
          if depth <? 3 then
            let '(r, s) := Math_random s in
            (("#" ++ toString16 (shl0 (r * inject_Z 16777215)))%string, s)
          else ("#000000"%string, s) in
        m ← drawLine (tree_map s) (round x1) (round x2) (round y1) (round y2)
              depth (Some color);
        let s :=
          mkTreeState m (draws s)
            (mkLineCall depth (round x1) (round x2) (round y1) (round y2)
                        depth color :: lines s) in
        let '(r1, s) := random 20 30 s in
        s ← drawTree fuel' x2 y2 (angle - r1) (depth - 1) s;
        let '(r2, s) := random 20 30 s in
        drawTree fuel' x2 y2 (angle + r2) (depth - 1) s
    end
  else Ok s.

(** The constructor of [FractalTree]; the recursion is at most [depth]
    deep (see [drawTree_fuel]). *)
Definition newFractalTree (depth : Z) (map : BlockMap) : outcome TreeState :=
  drawTree (Z.to_nat depth) (of_Z 450) (of_Z 700) (-90) depth
           (mkTreeState map 0 []).

End Tree.

(** A crude executable instance of the floating-point interface: numbers
    are integers and every direction is straight up, as the direction of
    the trunk is ([cos] is 0 and [sin] is -1 at -90 degrees, up to a
    rounding error that [x1 + ...] absorbs). *)
Definition upward : Floating := {|
  number := Z;
  of_Z := fun z => z;
  add := Z.add;
  mul := Z.mul;
  cos := fun _ => 0;
  sin := fun _ => -1;
  round := fun z => z;
  PI_over_180 := 0
|}.

(** ** Vocabulary of the statements *)

(** The value at position [(x, y)]: [this.map[x][y]], [None] when the
    column or the entry is missing. *)
Definition cell (m : BlockMap) (x y : Z) : option Block :=
  match JS.get (map m) x with
  | Some col => JS.get col y
  | None => None
  end.

(** A column of height [h]: its length is [h] and it has no entry at or
    above its length. *)
Definition col_ok (h : Z) (col : JS.Array Block) : Prop :=
  JS.length col = h /\ forall k, h <= k -> JS.get col k = None.

(** An array of length [w] whose entries below [i] are columns of height
    [h], and which has no other entry. *)
Definition cols_ok (w h : Z) (a : JS.Array (JS.Array Block)) (i : Z) : Prop :=
  JS.length a = w /\
  (forall x, 0 <= x < i -> exists col, JS.get a x = Some col /\ col_ok h col) /\
  (forall x, x < 0 \/ i <= x -> JS.get a x = None).

(** A grid of width [w] and height [h], as the constructor builds it and
    [setBlock] keeps it. *)
Definition grid_ok (w h : Z) (m : BlockMap) : Prop := cols_ok w h (map m) w.

Definition in_bounds (w h x y : Z) : Prop := 0 <= x < w /\ 0 <= y < h.

(** The 2 by 2 grid that [new BlockMap(2, 2)] builds. *)
Definition grid22 : BlockMap :=
  mkBlockMap
    (JS.set (JS.set (JS.mkArray 2 ∅) 0 (JS.mkArray 2 ∅)) 1 (JS.mkArray 2 ∅)).

(** Whether [setBlock] at [(x, y)] passes its three tests and stores. *)
Definition stores (m : BlockMap) (x y : Z) : bool :=
  match JS.get (map m) x with
  | Some col => (x <? JS.length (map m)) && (y <? JS.length col)
  | None => false
  end.

(** Two positions that are neighbours, diagonals included. *)
Definition adjacent8 (p q : Z * Z) : Prop :=
  Z.max (Z.abs (fst q - fst p)) (Z.abs (snd q - snd p)) = 1.

Fixpoint chain8 (l : list (Z * Z)) : Prop :=
  match l with
  | p :: tl =>
      match tl with
      | q :: _ => adjacent8 p q /\ chain8 tl
      | [] => True
      end
  | [] => True
  end.

(** The state the loop of [drawLine] is in after one more execution of its
    body, with [e] twice the accumulator. *)
Definition next_x (dx sx x e : Z) : Z :=
  if - (2 * dx) <? e then x + sx else x.

Definition next_y (dy sy y e : Z) : Z :=
  if e <? 2 * dy then y + sy else y.

Definition next_e (dx dy e : Z) : Z :=
  e - (if - (2 * dx) <? e then 2 * dy else 0)
    + (if e <? 2 * dy then 2 * dx else 0).

(** The distance left along the axis that advances at every step. *)
Definition major_left (x1 y1 dx dy sx sy : Z) (p : Z * Z) : Z :=
  if dx >? dy then sx * (x1 - fst p) else sy * (y1 - snd p).

(** The invariant of the loop at a state [(x, y, e)] with [n] executions of
    the body left; [e] is twice the accumulator. *)
Definition line_inv (x1 y1 dx dy sx sy x y e : Z) (n : nat) : Prop :=
  (sx = 1 \/ sx = -1) /\ (sy = 1 \/ sy = -1) /\ 0 <= dx /\ 0 <= dy /\
  0 < Z.max dx dy /\
  e = (if dx >? dy then dx else - dy)
      + 2 * (sx * (x1 - x) * dy - sy * (y1 - y) * dx) /\
  major_left x1 y1 dx dy sx sy (x, y) = Z.of_nat n /\
  (if dx >? dy then 0 <= e < 2 * dx else - (2 * dy) < e <= 0).

(** The colour of a line drawn at [depth], when [i] draws were made before
    the call chose it. *)
Definition branch_color (rand : nat -> Q) (depth : Z) (i : nat) : string :=
  if depth <? 3
  then ("#" ++ toString16 (shl0 (rand i * inject_Z 16777215)))%string
  else "#000000"%string.

(** What one line of the log records, for a tree of depth [depth] that made
    the draws from [d0] up to [d1]: [i] is the number of draws made when the
    line's [drawTree] call began. *)
Definition line_ok (rand : nat -> Q) (depth : Z) (d0 d1 : nat)
    (lc : LineCall) (i : nat) : Prop :=
  lc_thickness lc = lc_depth lc /\
  1 <= lc_depth lc <= depth /\
  (d0 <= i < d1)%nat /\
  lc_color lc = branch_color rand (lc_depth lc) i.

(** A colour of the form #RRGGBB. *)
Definition is_hex_digit (a : ascii) : bool :=
  let n := nat_of_ascii a in
  ((48 <=? n) && (n <=? 57) || (97 <=? n) && (n <=? 102)
   || (65 <=? n) && (n <=? 70))%nat.

Definition is_hex6 (s : string) : bool :=
  match s with
  | String "#" rest =>
      (String.length rest =? 6)%nat
      && forallb is_hex_digit (list_ascii_of_string rest)
  | _ => false
  end.

(** The grid [new BlockMap(w, h)] builds, for sizes it accepts. *)
Definition sample_grid (w h : Z) : BlockMap :=
  match newBlockMap w h with
  | Ok m => m
  | _ => mkBlockMap (JS.mkArray 0 ∅)
  end.

(** ** drawLine on doubles *)

(** The embedding of [drawLine] above computes on [Z] and [Q] exactly.  In
    the program every number is a binary64 double, and every operation
    rounds its result to the nearest double, ties to even.  The two agree
    as long as every value is an integer or a half-integer below [2^52];
    coordinates of magnitude up to [2^50] keep all values of the loop in
    that range. *)
Definition safe_coord (z : Z) : Prop := Z.abs z <= 2 ^ 50.

(** [floor (log2 q)] for a positive [q]. *)
Definition floor_log2 (q : Q) : Z :=
  let k := Z.log2 (Qnum q) - Z.log2 (Z.pos (Qden q)) in
  if Qle_bool (2 ^ k)%Q q then k else k - 1.

(** The nearest integer, ties to the even one. *)
Definition round_half_even (q : Q) : Z :=
  let f := Qfloor q in
  match (q - inject_Z f ?= 1 # 2)%Q with
  | Lt => f
  | Gt => f + 1
  | Eq => if Z.even f then f else f + 1
  end.

(** The double nearest to [q], ties to even: the result of an arithmetic
    operation whose exact value is [q].  A double has 53 significant bits
    and an exponent of at least -1022; results past the largest double
    (infinities) are outside this model. *)
Definition fround (q : Q) : Q :=
  match Qnum q with
  | 0 => 0%Q
  | _ =>
      let e := Z.max (floor_log2 (Qabs q)) (-1022) - 52 in
      (inject_Z (round_half_even (q / 2 ^ e)) * 2 ^ e)%Q
  end.

(** The double nearest to an integer, which is an integer. *)
Definition dbl (z : Z) : Z := Qfloor (fround (inject_Z z)).

(** The loop of [drawLine] with the rounding of every addition and
    subtraction written out; the coordinates are integer-valued doubles. *)
Fixpoint drawLine_double_loop (fuel : nat) (this : BlockMap)
    (x0 x1 y0 y1 dx dy sx sy : Z) (err : Q) (thickness : Z) (color : string)
  : outcome (BlockMap * list (Z * Z)) :=
  if negb ((x0 =? x1) && (y0 =? y1)) then
    match fuel with
    | O => OutOfFuel
    | S fuel' =>
        this' ← setBlock this x0 y0 thickness (Some color);
        let e2 := err in
        let '(err, x0') :=
          if Qltb (inject_Z (- dx)) e2
          then (fround (err - inject_Z dy), dbl (x0 + sx)) else (err, x0) in
        let '(err, y0') :=
          if Qltb e2 (inject_Z dy)
          then (fround (err + inject_Z dx), dbl (y0 + sy)) else (err, y0) in
        r ← drawLine_double_loop fuel' this' x0' x1 y0' y1 dx dy sx sy err
              thickness color;
        Ok (fst r, (x0, y0) :: snd r)
    end
  else Ok (this, []).

(** [drawLine] on doubles, run with [fuel]; the end points are
    integer-valued doubles. *)
Definition drawLine_double_run (fuel : nat) (this : BlockMap)
    (x0 x1 y0 y1 : Z) (thickness : Z) (color : option string)
  : outcome (BlockMap * list (Z * Z)) :=
  let color := default_color color in
  let dx := Z.abs (dbl (x1 - x0)) in
  let sx := if x0 <? x1 then 1 else -1 in
  let dy := Z.abs (dbl (y1 - y0)) in
  let sy := if y0 <? y1 then 1 else -1 in
  let err :=
    fround ((if dx >? dy then inject_Z dx else inject_Z (- dy)) / 2) in
  drawLine_double_loop fuel this x0 x1 y0 y1 dx dy sx sy err thickness color.

(** ** The products of [drawTree] on doubles *)

(** The colour [drawTree] makes of the draw [r]:
    ['#' + (r * 0xFFFFFF << 0).toString(16)], the product rounded to a
    double as the processor does. *)
Definition random_color (r : Q) : string :=
  ("#" ++ toString16 (shl0 (fround (r * inject_Z 16777215))))%string.



Section TreeDouble.

Context {F : Floating}.

Variable rand : nat -> Q.



End TreeDouble.

(** ** render *)

(** The calls [render] makes on the canvas context. *)
Inductive CanvasOp : Type :=
| SetFillStyle (color : string)     (* ctx.fillStyle = color *)
| FillRect (x y w h : Z).           (* ctx.fillRect(x, y, w, h) *)

(** Truthiness of a string: the empty string is falsy. *)
Definition truthy_string (s : string) : bool :=
  negb (String.eqb s EmptyString).

(** The inner loop of [render],
    [for (j = 0; j < _this.map[i].length; j++)], from [j] on; [ctx] is the
    list of the calls made on the context so far. *)
Fixpoint render_rows (fuel : nat) (this : BlockMap) (i j : Z)
    (ctx : list CanvasOp) : outcome (list CanvasOp) :=
  len ← JS.length_of (JS.get (map this) i);
  if j <? len then
    match fuel with
    | O => OutOfFuel
    | S fuel' =>
        b ← JS.get_of (JS.get (map this) i) j;
        let ctx' :=
          match b with
          | Some blk =>
              if truthy_string (color blk) then
                let thickness := thickness blk in
                ctx ++ [SetFillStyle (color blk);
                        FillRect i j thickness thickness]
              else ctx
          | None => ctx
          end in
        render_rows fuel' this i (j + 1) ctx'
    end
  else Ok ctx.

(** The number of rows the inner loop walks in column [i]. *)
Definition rows_of (this : BlockMap) (i : Z) : nat :=
  match JS.get (map this) i with
  | Some col => Z.to_nat (JS.length col)
  | None => O
  end.

(** The outer loop of [render], [for (i = 0; i < _this.map.length; i++)],
    from [i] on. *)
Fixpoint render_columns (fuel : nat) (this : BlockMap) (i : Z)
    (ctx : list CanvasOp) : outcome (list CanvasOp) :=
  if i <? JS.length (map this) then
    match fuel with
    | O => OutOfFuel
    | S fuel' =>
        ctx' ← render_rows (rows_of this i) this i 0 ctx;
        render_columns fuel' this (i + 1) ctx'
    end
  else Ok ctx.

(** [render]: the loops run as often as the map is wide and its columns
    are high (see [render_rows_run] and [render_columns_run]). *)
Definition render (this : BlockMap) (ctx : list CanvasOp)
  : outcome (list CanvasOp) :=
  render_columns (Z.to_nat (JS.length (map this))) this 0 ctx.

(** The calls that paint the cell at [(i, j)]: none when the cell is empty
    or its colour is the empty string. *)
Definition paint_ops (m : BlockMap) (i j : Z) : list CanvasOp :=
  match cell m i j with
  | Some blk =>
      if truthy_string (color blk)
      then [SetFillStyle (color blk);
            FillRect i j (thickness blk) (thickness blk)]
      else []
  | None => []
  end.

(** The calls that paint a grid of width [w] and height [h], column by
    column and, in a column, row by row. *)
Definition render_trace (w h : Z) (m : BlockMap) : list CanvasOp :=
  flat_map (fun i => flat_map (fun j => paint_ops m i j) (seqZ 0 h))
           (seqZ 0 w).

(** ** Vocabulary for the log of the tree *)

(** The line [lc] starts where the line [lp] ends, one level further down
    the tree. *)
Definition continues (lp lc : LineCall) : Prop :=
  lc_x0 lc = lc_x1 lp /\ lc_y0 lc = lc_y1 lp /\
  lc_depth lc = lc_depth lp - 1.

(** The number of [Math.random()] calls a tree of depth [N] makes. *)
Definition tree_draws (N : Z) : Z :=
  if N <=? 0 then 0 else if N =? 1 then 3 else 11 * 2 ^ (N - 2) - 2.

(** Every block of the map has a thickness from 1 to [N] and a non-empty
    colour. *)
Definition blocks_ok (N : Z) (m : BlockMap) : Prop :=
  forall i j blk, cell m i j = Some blk ->
                  1 <= thickness blk <= N /\ color blk <> EmptyString.

(** * Properties *)

(** ** Arrays *)

Lemma new_Array_Ok {A : Type} (n : Z) (a : JS.Array A) :
  JS.new_Array n = Ok a -> 0 <= n < 2 ^ 32 /\ a = JS.mkArray n ∅.
Proof.
  unfold JS.new_Array.
  destruct (0 <=? n) eqn:E1; destruct (n <? 2 ^ 32) eqn:E2; simpl;
    try discriminate.
  intros [= <-]. split; [lia | reflexivity].
Qed.

Lemma new_Array_total {A : Type} (n : Z) :
  0 <= n < 2 ^ 32 -> JS.new_Array n = Ok (@JS.mkArray A n ∅).
Proof.
  intros Hn. unfold JS.new_Array.
  destruct (0 <=? n) eqn:E1; destruct (n <? 2 ^ 32) eqn:E2; simpl;
    try reflexivity; lia.
Qed.

Lemma get_set_eq {A : Type} (a : JS.Array A) (k : Z) (v : A) :
  JS.get (JS.set a k v) k = Some v.
Proof. unfold JS.get, JS.set; simpl. apply lookup_insert_eq. Qed.

Lemma get_set_ne {A : Type} (a : JS.Array A) (k k' : Z) (v : A) :
  k <> k' -> JS.get (JS.set a k v) k' = JS.get a k'.
Proof. intros Hne. unfold JS.get, JS.set; simpl. by apply lookup_insert_ne. Qed.

Lemma length_set_below {A : Type} (a : JS.Array A) (k : Z) (v : A) :
  k < JS.length a -> JS.length (JS.set a k v) = JS.length a.
Proof.
  intros Hk. unfold JS.set; simpl.
  destruct ((0 <=? k) && (k <? 2 ^ 32 - 1)); lia.
Qed.

(** ** The constructor *)

Lemma fill_columns_ok (w h : Z) (n : nat) :
  forall (i : Z) (a a' : JS.Array (JS.Array Block)),
    0 <= i -> i + Z.of_nat n = w ->
    cols_ok w h a i ->
    fill_columns n i h a = Ok a' ->
    cols_ok w h a' w.
Proof.
  induction n as [|n IH]; intros i a a' Hi Hw Hok Hrun; simpl in Hrun.
  - injection Hrun as <-. assert (i = w) as -> by lia. exact Hok.
  - destruct (JS.new_Array h) as [col| |] eqn:Hcol; try discriminate.
    apply new_Array_Ok in Hcol as [Hh ->].
    change (fill_columns n (i + 1) h (JS.set a i (JS.mkArray h ∅)) = Ok a')
      in Hrun.
    apply (IH (i + 1)) in Hrun; [exact Hrun | lia | lia |].
    destruct Hok as (Hlen & Hin & Hout).
    split; [|split].
    + rewrite length_set_below; lia.
    + intros x Hx. destruct (Z.eq_dec x i) as [->|Hne].
      * exists (JS.mkArray h ∅). rewrite get_set_eq. split; [reflexivity|].
        split; [reflexivity|]. intros k _. apply lookup_empty.
      * rewrite get_set_ne by congruence. apply Hin. lia.
    + intros x Hx. rewrite get_set_ne by lia. apply Hout. lia.
Qed.

Lemma fill_columns_total (h : Z) (n : nat) :
  0 <= h < 2 ^ 32 ->
  forall (i : Z) (a : JS.Array (JS.Array Block)),
    exists a', fill_columns n i h a = Ok a'.
Proof.
  intros Hh. induction n as [|n IH]; intros i a; simpl.
  - eauto.
  - rewrite (new_Array_total h Hh). apply IH.
Qed.

(** The constructor builds a grid of the width and height it is given. *)
Lemma newBlockMap_grid_ok (w h : Z) (m : BlockMap) :
  newBlockMap w h = Ok m -> grid_ok w h m.
Proof.
  unfold newBlockMap. intros Hrun.
  destruct (JS.new_Array w) as [a| |] eqn:Ha; try discriminate.
  apply new_Array_Ok in Ha as [Hw ->].
  change (bind (fun m' => Ok (mkBlockMap m'))
            (fill_columns (Z.to_nat w) 0 h (JS.mkArray w ∅)) = Ok m) in Hrun.
  destruct (fill_columns (Z.to_nat w) 0 h (JS.mkArray w ∅)) as [a'| |] eqn:Hf;
    try discriminate.
  injection Hrun as <-.
  apply (fill_columns_ok w h _ 0) in Hf; [exact Hf | lia | lia |].
  split; [reflexivity|]. split.
  - intros x Hx. lia.
  - intros x _. apply lookup_empty.
Qed.

Lemma newBlockMap_total (w h : Z) :
  0 <= w < 2 ^ 32 -> 0 <= h < 2 ^ 32 -> exists m, newBlockMap w h = Ok m.
Proof.
  intros Hw Hh. unfold newBlockMap. rewrite (new_Array_total w Hw).
  destruct (fill_columns_total h (Z.to_nat w) Hh 0 (JS.mkArray w ∅)) as [a' Ha'].
  exists (mkBlockMap a').
  change (bind (fun m' => Ok (mkBlockMap m'))
            (fill_columns (Z.to_nat w) 0 h (JS.mkArray w ∅)) = Ok (mkBlockMap a')).
  rewrite Ha'. reflexivity.
Qed.

Lemma newBlockMap_2_2 : newBlockMap 2 2 = Ok grid22.
Proof. reflexivity. Qed.

Lemma grid22_ok : grid_ok 2 2 grid22.
Proof. apply newBlockMap_grid_ok, newBlockMap_2_2. Qed.

(** ** setBlock and getBlock *)

(** [setBlock] never throws; it stores exactly when its tests pass. *)
Lemma setBlock_eq (m : BlockMap) (x y t : Z) (c : option string) :
  setBlock m x y t c =
  Ok (if stores m x y
      then match JS.get (map m) x with
           | Some col =>
               mkBlockMap
                 (JS.set (map m) x (JS.set col y (mkBlock (default_color c) t)))
           | None => m
           end
      else m).
Proof.
  unfold setBlock, stores.
  destruct (JS.get (map m) x) as [col|]; simpl.
  - destruct (x <? JS.length (map m)); simpl; [|reflexivity].
    change (bind ?k (Ok ?a)) with (k a). cbv beta.
    destruct (y <? JS.length col); reflexivity.
  - destruct (x <? JS.length (map m)); reflexivity.
Qed.

Lemma setBlock_total (m : BlockMap) (x y t : Z) (c : option string) :
  exists m', setBlock m x y t c = Ok m'.
Proof. rewrite setBlock_eq. eauto. Qed.

(** What every position holds after [setBlock]. *)
Lemma setBlock_cell (m m' : BlockMap) (x y t : Z) (c : option string) :
  setBlock m x y t c = Ok m' ->
  forall i j,
    cell m' i j =
    if stores m x y && (i =? x) && (j =? y)
    then Some (mkBlock (default_color c) t)
    else cell m i j.
Proof.
  rewrite setBlock_eq. intros [= <-] i j.
  unfold stores.
  destruct (JS.get (map m) x) as [col|] eqn:Hcol; simpl.
  2: { reflexivity. }
  destruct ((x <? JS.length (map m)) && (y <? JS.length col)); simpl.
  2: { reflexivity. }
  unfold cell; simpl.
  destruct (Z.eqb_spec i x) as [->|Hix]; simpl.
  - rewrite get_set_eq.
    destruct (Z.eqb_spec j y) as [->|Hjy].
    + apply get_set_eq.
    + rewrite get_set_ne by congruence. rewrite Hcol. reflexivity.
  - rewrite get_set_ne by congruence. reflexivity.
Qed.

Lemma setBlock_frame (m m' : BlockMap) (x y t : Z) (c : option string) :
  setBlock m x y t c = Ok m' ->
  forall i j, (i, j) <> (x, y) -> cell m' i j = cell m i j.
Proof.
  intros Hset i j Hne. rewrite (setBlock_cell _ _ _ _ _ _ Hset).
  destruct (Z.eqb_spec i x) as [->|]; destruct (Z.eqb_spec j y) as [->|];
    rewrite ?andb_false_r; simpl; try reflexivity.
  congruence.
Qed.

Lemma grid_ok_stores (w h : Z) (m : BlockMap) (x y : Z) :
  grid_ok w h m -> stores m x y = (0 <=? x) && (x <? w) && (y <? h).
Proof.
  intros (Hlen & Hin & Hout). unfold stores.
  destruct (Z.leb_spec 0 x) as [H0|H0]; destruct (Z.ltb_spec x w) as [Hw|Hw];
    simpl.
  - destruct (Hin x) as (col & -> & Hcl & _); [lia|].
    rewrite Hlen, Hcl. destruct (Z.ltb_spec x w); [reflexivity | lia].
  - rewrite Hout by lia. reflexivity.
  - rewrite Hout by lia. reflexivity.
  - rewrite Hout by lia. reflexivity.
Qed.

(** [setBlock] keeps the width and the height of the grid. *)
Lemma setBlock_grid_ok (w h : Z) (m m' : BlockMap) (x y t : Z)
    (c : option string) :
  grid_ok w h m -> setBlock m x y t c = Ok m' -> grid_ok w h m'.
Proof.
  intros Hok. rewrite setBlock_eq.
  rewrite (grid_ok_stores w h m x y Hok).
  destruct (Z.leb_spec 0 x) as [H0|H0]; destruct (Z.ltb_spec x w) as [Hw|Hw];
    destruct (Z.ltb_spec y h) as [Hy|Hy]; simpl;
    try (intros [= <-]; exact Hok).
  destruct Hok as (Hlen & Hin & Hout).
  destruct (Hin x) as (col & Hcol & Hcl & Hnone); [lia|].
  rewrite Hcol. intros [= <-]. unfold grid_ok; simpl.
  split; [|split].
  - rewrite length_set_below; lia.
  - intros i Hi. destruct (Z.eq_dec i x) as [->|Hne].
    + rewrite get_set_eq. eexists; split; [reflexivity|]. split.
      * rewrite length_set_below; lia.
      * intros k Hk. rewrite get_set_ne by lia. apply Hnone, Hk.
    + rewrite get_set_ne by congruence. apply Hin, Hi.
  - intros i Hi. rewrite get_set_ne by lia. apply Hout, Hi.
Qed.

(** Inside a grid [getBlock] reads the cell and does not throw. *)
Lemma getBlock_in_bounds (w h : Z) (m : BlockMap) (x y : Z) :
  grid_ok w h m -> 0 <= x < w -> y <= h -> getBlock m x y = Ok (cell m x y).
Proof.
  intros (Hlen & Hin & Hout) Hx Hy. unfold getBlock, cell.
  rewrite Hlen. destruct (Z.leb_spec x w); [|lia].
  destruct (Hin x Hx) as (col & -> & Hcl & _). simpl.
  change (bind ?k (Ok ?a)) with (k a). cbv beta.
  rewrite Hcl. destruct (Z.leb_spec y h); [reflexivity | lia].
Qed.

(** The behaviour of [getBlock] on a grid, case by case. *)
Lemma getBlock_cases (w h : Z) (m : BlockMap) (x y : Z) :
  grid_ok w h m ->
  getBlock m x y =
  if w <? x then Throw (RangeError "x is out of bounds")
  else if (x <? 0) || (x =? w) then Throw TypeError
  else if h <? y then Throw (RangeError "y is out of bounds")
  else Ok (cell m x y).
Proof.
  intros Hok.
  destruct (Z.ltb_spec w x) as [Hwx|Hwx].
  - unfold getBlock. destruct Hok as (-> & _).
    destruct (Z.leb_spec x w); [lia | reflexivity].
  - destruct (Z.ltb_spec x 0) as [H0|H0]; destruct (Z.eqb_spec x w) as [He|He];
      simpl.
    1-3: unfold getBlock; destruct Hok as (Hlen & _ & Hout);
         rewrite Hlen, Hout by lia;
         destruct (Z.leb_spec x w); [reflexivity | lia].
    destruct (Z.ltb_spec h y) as [Hy|Hy].
    + unfold getBlock. destruct Hok as (Hlen & Hin & _).
      rewrite Hlen. destruct (Z.leb_spec x w); [|lia].
      destruct (Hin x) as (col & -> & Hcl & _); [lia|]. simpl.
      change (bind ?k (Ok ?a)) with (k a). cbv beta.
      rewrite Hcl. destruct (Z.leb_spec y h); [lia | reflexivity].
    + apply (getBlock_in_bounds w h); [exact Hok | lia | lia].
Qed.

(** On a grid nothing is stored at the height of a column. *)
Lemma cell_at_height (w h : Z) (m : BlockMap) (x : Z) :
  grid_ok w h m -> cell m x h = None.
Proof.
  intros (_ & Hin & Hout). unfold cell.
  destruct (Z_lt_le_dec x 0); [rewrite Hout by lia; reflexivity|].
  destruct (Z_lt_le_dec x w); [|rewrite Hout by lia; reflexivity].
  destruct (Hin x) as (col & -> & _ & Hnone); [lia|]. apply Hnone. lia.
Qed.

(** ** The arithmetic of the error accumulator *)

Lemma Qhalf (a : Z) : (inject_Z a / 2)%Q = a # 2.
Proof.
  unfold Qdiv, Qmult, Qinv, inject_Z; simpl. f_equal. lia.
Qed.

Lemma Qhalf_sub (e d : Z) : ((e # 2) - inject_Z d)%Q = (e - 2 * d) # 2.
Proof.
  unfold Qminus, Qplus, Qopp, inject_Z; simpl. f_equal. lia.
Qed.

Lemma Qhalf_add (e d : Z) : ((e # 2) + inject_Z d)%Q = (e + 2 * d) # 2.
Proof.
  unfold Qplus, inject_Z; simpl. f_equal. lia.
Qed.

Lemma Qltb_Z_half (a e : Z) : Qltb (inject_Z a) (e # 2) = (2 * a <? e).
Proof.
  unfold Qltb, Qle_bool, inject_Z; simpl.
  destruct (Z.leb_spec (e * 1) (a * 2)); destruct (Z.ltb_spec (2 * a) e);
    simpl; try reflexivity; lia.
Qed.

Lemma Qltb_half_Z (e a : Z) : Qltb (e # 2) (inject_Z a) = (e <? 2 * a).
Proof.
  unfold Qltb, Qle_bool, inject_Z; simpl.
  destruct (Z.leb_spec (a * 2) (e * 1)); destruct (Z.ltb_spec e (2 * a));
    simpl; try reflexivity; lia.
Qed.

(** ** The loop of drawLine *)

Section Line.

Variables (x1 y1 dx dy sx sy : Z) (thickness : Z) (color : string).

Lemma drawLine_loop_stop (fuel : nat) (m : BlockMap) (e : Q) :
  drawLine_loop fuel m x1 x1 y1 y1 dx dy sx sy e thickness color
  = Ok (m, []).
Proof.
  destruct fuel; simpl; rewrite !Z.eqb_refl; reflexivity.
Qed.

Lemma drawLine_loop_step (fuel : nat) (m : BlockMap) (x y e : Z) :
  (x, y) <> (x1, y1) ->
  drawLine_loop (S fuel) m x x1 y y1 dx dy sx sy (e # 2) thickness color
  = (m' ← setBlock m x y thickness (Some color);
     r ← drawLine_loop fuel m' (next_x dx sx x e) x1 (next_y dy sy y e) y1
           dx dy sx sy (next_e dx dy e # 2) thickness color;
     Ok (fst r, (x, y) :: snd r)).
Proof.
  intros Hne. cbn [drawLine_loop].
  assert ((x =? x1) && (y =? y1) = false) as ->.
  { destruct (Z.eqb_spec x x1); destruct (Z.eqb_spec y y1); simpl;
      try reflexivity. congruence. }
  cbn [negb]. unfold next_x, next_y, next_e.
  destruct (setBlock m x y thickness (Some color)) as [m'| |];
    [|reflexivity|reflexivity].
  rewrite Qltb_Z_half, Qltb_half_Z.
  replace (2 * - dx) with (- (2 * dx)) by lia.
  destruct (- (2 * dx) <? e); destruct (e <? 2 * dy);
    rewrite ?Qhalf_sub, ?Qhalf_add, ?Z.sub_0_r, ?Z.add_0_r; reflexivity.
Qed.

End Line.

Section LineInvariant.

Variables (x1 y1 dx dy sx sy : Z).

Lemma line_inv_done (x y e : Z) :
  line_inv x1 y1 dx dy sx sy x y e 0 -> x = x1 /\ y = y1.
Proof.
  unfold line_inv, major_left; simpl.
  intros (Hsx & Hsy & Hdx & Hdy & Hpos & He & Hn & Hb).
  destruct (Z.gtb_spec dx dy) as [Hgt|Hle].
  - assert (x = x1) as -> by (destruct Hsx; subst sx; lia).
    split; [reflexivity|].
    assert (Hz : sy * (y1 - y) = 0) by nia.
    destruct Hsy; subst sy; lia.
  - assert (y = y1) as -> by (destruct Hsy; subst sy; lia).
    split; [|reflexivity].
    assert (Hz : sx * (x1 - x) = 0) by nia.
    destruct Hsx; subst sx; lia.
Qed.

Lemma line_inv_step (x y e : Z) (n : nat) :
  line_inv x1 y1 dx dy sx sy x y e (S n) ->
  (x, y) <> (x1, y1) /\
  adjacent8 (x, y) (next_x dx sx x e, next_y dy sy y e) /\
  line_inv x1 y1 dx dy sx sy
    (next_x dx sx x e) (next_y dy sy y e) (next_e dx dy e) n.
Proof.
  unfold line_inv, major_left, adjacent8, next_x, next_y, next_e; simpl.
  intros (Hsx & Hsy & Hdx & Hdy & Hpos & He & Hn & Hb).
  destruct (Z.gtb_spec dx dy) as [Hgt|Hle].
  - destruct (Z.ltb_spec (- (2 * dx)) e) as [H1|H1]; [|lia].
    split; [intros [= -> ->]; lia|].
    destruct (Z.ltb_spec e (2 * dy)) as [H2|H2];
      (split; [destruct Hsx, Hsy; subst sx sy; lia|]);
      repeat split; try assumption; try lia;
      destruct Hsx, Hsy; subst sx sy; lia.
  - destruct (Z.ltb_spec e (2 * dy)) as [H2|H2]; [|lia].
    split; [intros [= -> ->]; lia|].
    destruct (Z.ltb_spec (- (2 * dx)) e) as [H1|H1];
      (split; [destruct Hsx, Hsy; subst sx sy; lia|]);
      repeat split; try assumption; try lia;
      destruct Hsx, Hsy; subst sx sy; lia.
Qed.

End LineInvariant.

Section LineRun.

Variables (x1 y1 dx dy sx sy : Z) (thickness : Z) (color : string).

Local Abbreviation loop fuel m x y e :=
  (drawLine_loop fuel m x x1 y y1 dx dy sx sy (e # 2) thickness color).

(** With the invariant and enough fuel the loop returns, after exactly
    [n] executions of its body; the positions it visits form a chain
    that the target would continue, and all of them lie before the
    target on the major axis. *)
Lemma drawLine_loop_inv (n : nat) :
  forall (fuel : nat) (m : BlockMap) (x y e : Z),
    line_inv x1 y1 dx dy sx sy x y e n ->
    (n <= fuel)%nat ->
    exists m' cells,
      loop fuel m x y e = Ok (m', cells) /\
      List.length cells = n /\
      (exists rest, cells ++ [(x1, y1)] = (x, y) :: rest) /\
      chain8 (cells ++ [(x1, y1)]) /\
      (forall p, p ∈ cells ->
                 1 <= major_left x1 y1 dx dy sx sy p <= Z.of_nat n) /\
      NoDup cells.
Proof.
  induction n as [|n IH]; intros fuel m x y e Hinv Hfuel.
  - destruct (line_inv_done _ _ _ _ _ _ _ _ _ Hinv) as [-> ->].
    exists m, []. rewrite drawLine_loop_stop.
    split; [reflexivity|]. split; [reflexivity|].
    split; [exists []; reflexivity|].
    split; [exact I|]. split; [|constructor].
    intros p Hp. apply elem_of_nil in Hp as [].
  - destruct fuel as [|fuel]; [lia|].
    pose proof Hinv as (_ & _ & _ & _ & _ & _ & Hleft & _).
    destruct (line_inv_step _ _ _ _ _ _ _ _ _ _ Hinv) as (Hne & Hadj & Hnext).
    rewrite drawLine_loop_step by exact Hne.
    destruct (setBlock_total m x y thickness (Some color)) as [m1 Hm1].
    rewrite Hm1.
    destruct (IH fuel m1 _ _ _ Hnext ltac:(lia))
      as (m' & cells & Hrun & Hlen & [rest Hhd] & Hchain & Hleft' & Hnd).
    exists m', ((x, y) :: cells).
    split. { simpl. rewrite Hrun. reflexivity. }
    split. { simpl. rewrite Hlen. reflexivity. }
    split. { exists (cells ++ [(x1, y1)]). reflexivity. }
    split. { simpl. rewrite Hhd in *. split; assumption. }
    split.
    + intros p [->|Hp]%elem_of_cons; [lia|]. specialize (Hleft' p Hp). lia.
    + constructor; [|exact Hnd].
      intros Hin. specialize (Hleft' _ Hin). lia.
Qed.

(** With less fuel than the invariant asks for, the loop does not
    return. *)
Lemma drawLine_loop_short (n : nat) :
  forall (fuel : nat) (m : BlockMap) (x y e : Z),
    line_inv x1 y1 dx dy sx sy x y e n ->
    (fuel < n)%nat ->
    loop fuel m x y e = OutOfFuel.
Proof.
  induction n as [|n IH]; intros fuel m x y e Hinv Hfuel; [lia|].
  destruct (line_inv_step _ _ _ _ _ _ _ _ _ _ Hinv) as (Hne & _ & Hnext).
  destruct fuel as [|fuel].
  - simpl.
    assert ((x =? x1) && (y =? y1) = false) as ->; [|reflexivity].
    destruct (Z.eqb_spec x x1); destruct (Z.eqb_spec y y1); simpl;
      try reflexivity. congruence.
  - rewrite drawLine_loop_step by exact Hne.
    destruct (setBlock_total m x y thickness (Some color)) as [m1 ->].
    simpl. rewrite (IH fuel m1 _ _ _ Hnext) by lia. reflexivity.
Qed.

End LineRun.

Section LineEffect.

Variables (x1 y1 dx dy sx sy : Z) (thickness : Z) (color : string).

Local Abbreviation loopQ fuel m x y err :=
  (drawLine_loop fuel m x x1 y y1 dx dy sx sy err thickness color).

(** One unfolding of the loop, whatever the accumulator holds. *)
Lemma drawLine_loop_unfold (x y : Z) (err : Q) :
  exists x' y' err',
    forall (fuel : nat) (m : BlockMap),
      loopQ (S fuel) m x y err =
      if negb ((x =? x1) && (y =? y1)) then
        m' ← setBlock m x y thickness (Some color);
        r ← loopQ fuel m' x' y' err';
        Ok (fst r, (x, y) :: snd r)
      else Ok (m, []).
Proof.
  cbn [drawLine_loop].
  destruct (Qltb (inject_Z (- dx)) err); destruct (Qltb err (inject_Z dy));
    do 3 eexists; intros fuel m; reflexivity.
Qed.

Lemma drawLine_loop_0 (m : BlockMap) (x y : Z) (err : Q) :
  loopQ 0%nat m x y err =
  if negb ((x =? x1) && (y =? y1)) then OutOfFuel else Ok (m, []).
Proof. reflexivity. Qed.

(** More fuel does not change a result. *)
Lemma drawLine_loop_mono (fuel : nat) :
  forall (fuel' : nat) (m : BlockMap) (x y : Z) (err : Q) r,
    (fuel <= fuel')%nat ->
    loopQ fuel m x y err = Ok r ->
    loopQ fuel' m x y err = Ok r.
Proof.
  induction fuel as [|fuel IH]; intros fuel' m x y err r Hle.
  - rewrite drawLine_loop_0.
    destruct (negb ((x =? x1) && (y =? y1))) eqn:Htest; [discriminate|].
    intros <-. destruct fuel'; simpl; rewrite Htest; reflexivity.
  - destruct fuel' as [|fuel']; [lia|].
    destruct (drawLine_loop_unfold x y err) as (x' & y' & err' & Hun).
    rewrite !Hun.
    destruct (negb ((x =? x1) && (y =? y1))); [|auto].
    destruct (setBlock m x y thickness (Some color)) as [m1| |];
      try discriminate.
    simpl.
    destruct (loopQ fuel m1 x' y' err') as [r1| |] eqn:Hr1; try discriminate.
    rewrite (IH fuel' m1 x' y' err' r1 ltac:(lia) Hr1). auto.
Qed.

(** The loop does not throw. *)
Lemma drawLine_loop_no_throw (fuel : nat) :
  forall (m : BlockMap) (x y : Z) (err : Q) (e : error),
    loopQ fuel m x y err <> Throw e.
Proof.
  induction fuel as [|fuel IH]; intros m x y err e.
  - rewrite drawLine_loop_0. destruct (negb _); discriminate.
  - destruct (drawLine_loop_unfold x y err) as (x' & y' & err' & Hun).
    rewrite Hun. destruct (negb _); [|discriminate].
    destruct (setBlock_total m x y thickness (Some color)) as [m1 ->].
    simpl. specialize (IH m1 x' y' err').
    destruct (loopQ fuel m1 x' y' err'); simpl; [discriminate| |discriminate].
    intros [= <-]. exact (IH _ eq_refl).
Qed.

End LineEffect.

Lemma setBlock_stores (m m' : BlockMap) (x y t : Z) (c : option string) :
  setBlock m x y t c = Ok m' ->
  forall i j, stores m' i j = stores m i j.
Proof.
  rewrite setBlock_eq. intros [= <-] i j.
  destruct (stores m x y) eqn:Hst; [|reflexivity].
  unfold stores in Hst |- *.
  destruct (JS.get (map m) x) as [col|] eqn:Hcol; [|discriminate].
  apply andb_prop in Hst as [Hx%Z.ltb_lt Hy%Z.ltb_lt]. cbn [map].
  rewrite length_set_below by exact Hx.
  destruct (Z.eq_dec i x) as [->|Hne].
  - rewrite get_set_eq, Hcol, length_set_below by exact Hy. reflexivity.
  - rewrite get_set_ne by congruence. reflexivity.
Qed.

Section LineCells.

Variables (x1 y1 dx dy sx sy : Z) (thickness : Z) (color : string).

Local Abbreviation loopQ fuel m x y err :=
  (drawLine_loop fuel m x x1 y y1 dx dy sx sy err thickness color).

(** What every position holds after the loop: the new block where the
    loop visited and [setBlock] stores, the old value elsewhere. *)
Lemma drawLine_loop_effect (fuel : nat) :
  forall (m : BlockMap) (x y : Z) (err : Q) (m' : BlockMap) cells,
    loopQ fuel m x y err = Ok (m', cells) ->
    forall i j,
      cell m' i j =
      if bool_decide ((i, j) ∈ cells) && stores m i j
      then Some (mkBlock color thickness)
      else cell m i j.
Proof.
  induction fuel as [|fuel IH]; intros m x y err m' cells.
  - rewrite drawLine_loop_0. destruct (negb _); [discriminate|].
    intros [= <- <-] i j. reflexivity.
  - destruct (drawLine_loop_unfold x1 y1 dx dy sx sy thickness color x y err)
      as (x' & y' & err' & Hun).
    rewrite Hun. destruct (negb _).
    2: { intros [= <- <-] i j. reflexivity. }
    destruct (setBlock m x y thickness (Some color)) as [m1| |] eqn:Hm1;
      try discriminate.
    simpl.
    destruct (loopQ fuel m1 x' y' err') as [[m2 cells2]| |] eqn:Hr;
      try discriminate.
    simpl. intros [= <- <-] i j.
    rewrite (IH _ _ _ _ _ _ Hr i j).
    rewrite (setBlock_stores _ _ _ _ _ _ Hm1 i j).
    rewrite (setBlock_cell _ _ _ _ _ _ Hm1 i j). simpl.
    destruct (stores m i j) eqn:Hij; rewrite ?andb_true_r, ?andb_false_r.
    + destruct (decide ((i, j) = (x, y))) as [[= -> ->]|Hne].
      * rewrite Hij, !Z.eqb_refl. simpl.
        rewrite (bool_decide_eq_true_2 _ (list_elem_of_here _ _)).
        destruct (bool_decide _); reflexivity.
      * assert ((i =? x) && (j =? y) = false) as Hf.
        { destruct (Z.eqb_spec i x); destruct (Z.eqb_spec j y); simpl;
            try reflexivity. congruence. }
        rewrite <- andb_assoc, Hf, andb_false_r.
        assert (bool_decide ((i, j) ∈ (x, y) :: cells2)
                = bool_decide ((i, j) ∈ cells2)) as ->; [|reflexivity].
        apply bool_decide_ext. rewrite elem_of_cons. tauto.
    + destruct (decide ((i, j) = (x, y))) as [[= -> ->]|Hne].
      * rewrite Hij. reflexivity.
      * assert ((i =? x) && (j =? y) = false) as Hf.
        { destruct (Z.eqb_spec i x); destruct (Z.eqb_spec j y); simpl;
            try reflexivity. congruence. }
        rewrite <- andb_assoc, Hf, andb_false_r. reflexivity.
Qed.

(** The loop keeps the width and the height of the grid. *)
Lemma drawLine_loop_grid_ok (w h : Z) (fuel : nat) :
  forall (m : BlockMap) (x y : Z) (err : Q) (m' : BlockMap) cells,
    grid_ok w h m ->
    loopQ fuel m x y err = Ok (m', cells) ->
    grid_ok w h m'.
Proof.
  induction fuel as [|fuel IH]; intros m x y err m' cells Hok.
  - rewrite drawLine_loop_0. destruct (negb _); [discriminate|].
    intros [= <- <-]. exact Hok.
  - destruct (drawLine_loop_unfold x1 y1 dx dy sx sy thickness color x y err)
      as (x' & y' & err' & Hun).
    rewrite Hun. destruct (negb _).
    2: { intros [= <- <-]. exact Hok. }
    destruct (setBlock m x y thickness (Some color)) as [m1| |] eqn:Hm1;
      try discriminate.
    simpl.
    destruct (loopQ fuel m1 x' y' err') as [[m2 cells2]| |] eqn:Hr;
      try discriminate.
    simpl. intros [= <- <-].
    eapply IH; [|exact Hr]. eapply setBlock_grid_ok; eassumption.
Qed.

End LineCells.

(** ** drawLine as a whole *)

Lemma line_inv_init (x0 x1 y0 y1 : Z) :
  (x0, y0) <> (x1, y1) ->
  line_inv x1 y1 (Z.abs (x1 - x0)) (Z.abs (y1 - y0))
    (if x0 <? x1 then 1 else -1) (if y0 <? y1 then 1 else -1) x0 y0
    (if Z.abs (x1 - x0) >? Z.abs (y1 - y0)
     then Z.abs (x1 - x0) else - Z.abs (y1 - y0))
    (line_steps x0 x1 y0 y1).
Proof.
  intros Hne.
  assert (Hxy : x0 <> x1 \/ y0 <> y1).
  { destruct (Z.eq_dec x0 x1); [|auto]. destruct (Z.eq_dec y0 y1); [|auto].
    congruence. }
  assert (Hrx : (if x0 <? x1 then 1 else -1) * (x1 - x0) = Z.abs (x1 - x0))
    by (destruct (Z.ltb_spec x0 x1); lia).
  assert (Hry : (if y0 <? y1 then 1 else -1) * (y1 - y0) = Z.abs (y1 - y0))
    by (destruct (Z.ltb_spec y0 y1); lia).
  unfold line_inv, major_left, line_steps. cbn [fst snd].
  rewrite Hrx, Hry.
  split; [destruct (x0 <? x1); auto|].
  split; [destruct (y0 <? y1); auto|].
  split; [lia|]. split; [lia|]. split; [lia|].
  split; [lia|].
  destruct (Z.gtb_spec (Z.abs (x1 - x0)) (Z.abs (y1 - y0))); split; lia.
Qed.

(** [drawLine] returns whenever its loop may run
    [max(|x1 - x0|, |y1 - y0|)] times, and then it has executed the body
    exactly that many times.  The visited positions are pairwise distinct,
    start at [(x0, y0)], advance by one 8-neighbour step at a time, stop one
    step short of [(x1, y1)] and never contain it. *)
Lemma drawLine_run_spec (fuel : nat) (m : BlockMap) (x0 x1 y0 y1 t : Z)
    (c : option string) :
  (line_steps x0 x1 y0 y1 <= fuel)%nat ->
  exists m' cells,
    drawLine_run fuel m x0 x1 y0 y1 t c = Ok (m', cells) /\
    List.length cells = line_steps x0 x1 y0 y1 /\
    (exists rest, cells ++ [(x1, y1)] = (x0, y0) :: rest) /\
    chain8 (cells ++ [(x1, y1)]) /\
    ((x1, y1) ∉ cells) /\
    NoDup cells.
Proof.
  intros Hfuel. unfold drawLine_run.
  destruct (decide ((x0, y0) = (x1, y1))) as [[= -> ->]|Hne].
  - exists m, []. rewrite drawLine_loop_stop.
    split; [reflexivity|]. unfold line_steps.
    rewrite !Z.sub_diag. split; [reflexivity|].
    split; [exists []; reflexivity|]. split; [exact I|].
    split; [apply not_elem_of_nil | constructor].
  - pose proof (line_inv_init x0 x1 y0 y1 Hne) as Hinv.
    assert (Herr :
      ((if Z.abs (x1 - x0) >? Z.abs (y1 - y0)
        then inject_Z (Z.abs (x1 - x0))
        else inject_Z (- Z.abs (y1 - y0))) / 2)%Q
      = (if Z.abs (x1 - x0) >? Z.abs (y1 - y0)
         then Z.abs (x1 - x0) else - Z.abs (y1 - y0)) # 2).
    { destruct (Z.abs (x1 - x0) >? Z.abs (y1 - y0)); apply Qhalf. }
    rewrite Herr.
    destruct (drawLine_loop_inv _ _ _ _ _ _ t (default_color c) _ fuel m
                _ _ _ Hinv Hfuel)
      as (m' & cells & Hrun & Hlen & Hhd & Hchain & Hleft & Hnd).
    exists m', cells. repeat split; try assumption.
    intros Hin. specialize (Hleft _ Hin). unfold major_left in Hleft.
    cbn [fst snd] in Hleft. rewrite !Z.sub_diag, !Z.mul_0_r in Hleft.
    destruct (_ >? _); lia.
Qed.

(** With fewer executions of the body allowed, the loop does not finish. *)
Lemma drawLine_run_short (fuel : nat) (m : BlockMap) (x0 x1 y0 y1 t : Z)
    (c : option string) :
  (fuel < line_steps x0 x1 y0 y1)%nat ->
  drawLine_run fuel m x0 x1 y0 y1 t c = OutOfFuel.
Proof.
  intros Hfuel. unfold drawLine_run.
  assert (Hne : (x0, y0) <> (x1, y1)).
  { intros [= -> ->]. unfold line_steps in Hfuel.
    rewrite !Z.sub_diag in Hfuel. simpl in Hfuel. lia. }
  pose proof (line_inv_init x0 x1 y0 y1 Hne) as Hinv.
  destruct (Z.abs (x1 - x0) >? Z.abs (y1 - y0)); rewrite Qhalf;
    eapply drawLine_loop_short; eassumption.
Qed.

(** The fuel [drawLine] runs its loop with is enough, and any larger
    amount gives the same result. *)
Lemma drawLine_run_fuel (fuel : nat) (m : BlockMap) (x0 x1 y0 y1 t : Z)
    (c : option string) :
  (line_steps x0 x1 y0 y1 <= fuel)%nat ->
  drawLine_run fuel m x0 x1 y0 y1 t c
  = drawLine_run (line_steps x0 x1 y0 y1) m x0 x1 y0 y1 t c.
Proof.
  intros Hfuel.
  destruct (drawLine_run_spec (line_steps x0 x1 y0 y1) m x0 x1 y0 y1 t c
              (le_n _)) as (m' & cells & Hrun & _).
  rewrite Hrun. unfold drawLine_run in *.
  eapply drawLine_loop_mono; eassumption.
Qed.

(** [drawLine] always returns a map. *)
Lemma drawLine_total (m : BlockMap) (x0 x1 y0 y1 t : Z) (c : option string) :
  exists m' cells,
    drawLine m x0 x1 y0 y1 t c = Ok m' /\
    drawLine_cells m x0 x1 y0 y1 t c = Ok cells /\
    drawLine_run (line_steps x0 x1 y0 y1) m x0 x1 y0 y1 t c = Ok (m', cells).
Proof.
  destruct (drawLine_run_spec (line_steps x0 x1 y0 y1) m x0 x1 y0 y1 t c
              (le_n _)) as (m' & cells & Hrun & _).
  exists m', cells. unfold drawLine, drawLine_cells. rewrite Hrun.
  repeat split.
Qed.

(** What every position holds after [drawLine]. *)
Lemma drawLine_effect (m m' : BlockMap) (x0 x1 y0 y1 t : Z)
    (c : option string) cells :
  drawLine_run (line_steps x0 x1 y0 y1) m x0 x1 y0 y1 t c = Ok (m', cells) ->
  forall i j,
    cell m' i j =
    if bool_decide ((i, j) ∈ cells) && stores m i j
    then Some (mkBlock (default_color c) t)
    else cell m i j.
Proof. unfold drawLine_run. apply drawLine_loop_effect. Qed.

Lemma drawLine_grid_ok (w h : Z) (m m' : BlockMap) (x0 x1 y0 y1 t : Z)
    (c : option string) :
  grid_ok w h m -> drawLine m x0 x1 y0 y1 t c = Ok m' -> grid_ok w h m'.
Proof.
  intros Hok. unfold drawLine.
  destruct (drawLine_run _ m x0 x1 y0 y1 t c) as [[m1 cells]| |] eqn:Hrun;
    try discriminate.
  simpl. intros [= <-]. unfold drawLine_run in Hrun.
  eapply drawLine_loop_grid_ok; eassumption.
Qed.

(** ** drawTree *)

Section TreeProperties.

Context {F : Floating}.
Variable rand : nat -> Q.

Lemma line_ok_weaken (depth depth' : Z) (d0 d0' d1 d1' : nat) lc i :
  depth <= depth' -> (d0' <= d0)%nat -> (d1 <= d1')%nat ->
  line_ok rand depth d0 d1 lc i -> line_ok rand depth' d0' d1' lc i.
Proof.
  intros Hd H0 H1 (Ht & Hr & Hi & Hc).
  split; [exact Ht|]. split; [lia|]. split; [lia|exact Hc].
Qed.

Lemma line_ok_range (depth : Z) (d0 d1 : nat) new idxs :
  Forall2 (line_ok rand depth d0 d1) new idxs ->
  forall i, i ∈ idxs -> (d0 <= i < d1)%nat.
Proof.
  induction 1 as [|lc i new idxs Hlc _ IH]; intros j Hj.
  - apply elem_of_nil in Hj as [].
  - apply elem_of_cons in Hj as [->|Hj]; [|apply IH, Hj].
    destruct Hlc as (_ & _ & Hi & _). exact Hi.
Qed.

(** [drawTree] returns when it may recurse [depth] deep; it adds
    [2 ^ depth - 1] lines to the log, none when [depth <= 0].  Every line
    has its own draw index, which fixes its colour. *)
Lemma drawTree_spec (fuel : nat) :
  forall (x1 y1 : number) (angle depth : Z) (s : TreeState),
    (Z.to_nat depth <= fuel)%nat ->
    exists s' new idxs,
      drawTree rand fuel x1 y1 angle depth s = Ok s' /\
      lines s' = new ++ lines s /\
      Z.of_nat (List.length new) = 2 ^ Z.max 0 depth - 1 /\
      (forall d,
          Z.of_nat (List.length
                      (List.filter (fun lc => lc_thickness lc =? d) new))
          = if (1 <=? d) && (d <=? depth) then 2 ^ (depth - d) else 0) /\
      (draws s <= draws s')%nat /\
      Forall2 (line_ok rand depth (draws s) (draws s')) new idxs /\
      NoDup idxs.
Proof.
  induction fuel as [|fuel IH]; intros x1 y1 angle depth s Hfuel.
  - assert (depth <= 0) by lia. exists s, [], [].
    simpl. destruct (Z.gtb_spec depth 0); [lia|].
    replace (Z.max 0 depth) with 0 by lia.
    split; [reflexivity|]. split; [reflexivity|]. split; [reflexivity|].
    split. { intros d. simpl.
             destruct (Z.leb_spec 1 d); destruct (Z.leb_spec d depth);
               simpl; lia. }
    split; [lia|]. split; constructor.
  - cbn [drawTree]. destruct (Z.gtb_spec depth 0) as [Hpos|Hle].
    2: { exists s, [], []. replace (Z.max 0 depth) with 0 by lia.
         split; [reflexivity|]. split; [reflexivity|]. split; [reflexivity|].
         split. { intros d. simpl.
                  destruct (Z.leb_spec 1 d); destruct (Z.leb_spec d depth);
                    simpl; lia. }
         split; [lia|]. split; constructor. }
    set (x2 := add x1 _). set (y2 := add y1 _).
    set (cs := if depth <? 3 then _ else _).
    assert (Hcs : cs = (branch_color rand depth (draws s),
                        mkTreeState (tree_map s)
                          (if depth <? 3 then S (draws s) else draws s)
                          (lines s))).
    { subst cs. unfold branch_color, Math_random.
      destruct (depth <? 3); [reflexivity|]. destruct s; reflexivity. }
    rewrite Hcs. clear cs Hcs. cbn [tree_map draws lines].
    destruct (drawLine_total (tree_map s) (round x1) (round x2) (round y1)
                (round y2) depth (Some (branch_color rand depth (draws s))))
      as (m & cells & -> & _).
    cbn [mbind outcome_bind bind].
    unfold random at 1, Math_random. cbn [tree_map draws lines].
    match goal with
    | |- context [drawTree rand fuel x2 y2 ?a ?d ?s1 ≫= _] =>
        destruct (IH x2 y2 a d s1 ltac:(lia))
          as (s2 & new1 & idxs1 & -> & Hl1 & Hn1 & Hc1 & Hd1 & Hok1 & Hnd1)
    end.
    cbn [mbind outcome_bind bind].
    unfold random, Math_random.
    match goal with
    | |- context [drawTree rand fuel x2 y2 ?a ?d ?s1] =>
        destruct (IH x2 y2 a d s1 ltac:(lia))
          as (s3 & new2 & idxs2 & -> & Hl2 & Hn2 & Hc2 & Hd2 & Hok2 & Hnd2)
    end.
    cbn [tree_map draws lines] in *.
    assert (Hs : (draws s
                  <= if (depth <? 3)%Z then S (draws s) else draws s)%nat)
      by (destruct (depth <? 3); lia).
    pose proof (line_ok_range _ _ _ _ _ Hok1) as Hr1.
    pose proof (line_ok_range _ _ _ _ _ Hok2) as Hr2.
    exists s3, (new2 ++ new1 ++ [mkLineCall depth (round x1) (round x2)
                                   (round y1) (round y2) depth
                                   (branch_color rand depth (draws s))]),
           (idxs2 ++ idxs1 ++ [draws s]).
    split; [reflexivity|].
    split. { rewrite Hl2, Hl1. rewrite <- !app_assoc. reflexivity. }
    split.
    { rewrite !length_app, !Nat2Z.inj_add, Hn1, Hn2. simpl.
      replace (Z.max 0 depth) with (Z.succ (Z.max 0 (depth - 1))) by lia.
      rewrite Z.pow_succ_r by lia. lia. }
    split.
    { intros d. rewrite !List.filter_app, !length_app, !Nat2Z.inj_add.
      rewrite Hc1, Hc2. cbn [List.filter lc_thickness].
      destruct (Z.eqb_spec depth d) as [<-|Hne].
      - destruct (Z.leb_spec 1 depth); [|lia].
        destruct (Z.leb_spec depth (depth - 1)); [lia|].
        destruct (Z.leb_spec depth depth); [|lia].
        rewrite Z.sub_diag. simpl. lia.
      - destruct (Z.leb_spec 1 d); destruct (Z.leb_spec d (depth - 1));
          destruct (Z.leb_spec d depth); simpl; try lia.
        replace (depth - d) with (Z.succ (depth - 1 - d)) by lia.
        rewrite Z.pow_succ_r by lia. lia. }
    split; [lia|]. split.
    + apply Forall2_app; [|apply Forall2_app].
      * eapply Forall2_impl; [exact Hok2|].
        intros lc i. apply line_ok_weaken; lia.
      * eapply Forall2_impl; [exact Hok1|].
        intros lc i. apply line_ok_weaken; lia.
      * constructor; [|constructor].
        split; [reflexivity|]. split; [simpl; lia|].
        split; [lia|reflexivity].
    + apply NoDup_app. split; [exact Hnd2|]. split.
      * intros i Hi2 [Hi1|Hi0%list_elem_of_singleton]%elem_of_app.
        -- specialize (Hr1 i Hi1). specialize (Hr2 i Hi2). lia.
        -- specialize (Hr2 i Hi2). lia.
      * apply NoDup_app. split; [exact Hnd1|]. split; [|apply NoDup_singleton].
        intros i Hi1 Hi0%list_elem_of_singleton.
        specialize (Hr1 i Hi1). lia.
Qed.

(** One unfolding of [drawTree] at a positive depth. *)
Lemma drawTree_unfold (fuel : nat) (x1 y1 : number) (angle depth : Z)
    (s : TreeState) :
  0 < depth ->
  drawTree rand (S fuel) x1 y1 angle depth s =
  let x2 :=
    add x1 (mul (mul (cos (mul (of_Z angle) deg2Rad)) (of_Z depth))
                (of_Z 10)) in
  let y2 :=
    add y1 (mul (mul (sin (mul (of_Z angle) deg2Rad)) (of_Z depth))
                (of_Z 10)) in
  let color := branch_color rand depth (draws s) in
  let d := if depth <? 3 then S (draws s) else draws s in
  m ← drawLine (tree_map s) (round x1) (round x2) (round y1) (round y2)
        depth (Some color);
  s1 ← drawTree rand fuel x2 y2
         (angle - (Qfloor (rand d * inject_Z 11) + 20)) (depth - 1)
         (mkTreeState m (S d)
            (mkLineCall depth (round x1) (round x2) (round y1) (round y2)
                        depth color :: lines s));
  drawTree rand fuel x2 y2
    (angle + (Qfloor (rand (draws s1) * inject_Z 11) + 20)) (depth - 1)
    (mkTreeState (tree_map s1) (S (draws s1)) (lines s1)).
Proof.
  intros Hpos. cbn [drawTree]. destruct (Z.gtb_spec depth 0); [|lia].
  unfold branch_color. destruct s as [m0 d0 l0].
  destruct (depth <? 3); reflexivity.
Qed.

(** More fuel does not change a result of [drawTree]. *)
Lemma drawTree_mono (fuel : nat) :
  forall (fuel' : nat) (x1 y1 : number) (angle depth : Z) (s s' : TreeState),
    (fuel <= fuel')%nat ->
    drawTree rand fuel x1 y1 angle depth s = Ok s' ->
    drawTree rand fuel' x1 y1 angle depth s = Ok s'.
Proof.
  induction fuel as [|fuel IH]; intros fuel' x1 y1 angle depth s s' Hle.
  - simpl. destruct (Z.gtb_spec depth 0) as [Hpos|Hneg]; [discriminate|].
    intros <-. destruct fuel'; simpl;
      destruct (Z.gtb_spec depth 0); try lia; reflexivity.
  - destruct (Z_lt_le_dec 0 depth) as [Hpos|Hneg].
    + destruct fuel' as [|fuel']; [lia|].
      rewrite !drawTree_unfold by exact Hpos. cbv zeta.
      destruct (drawLine _ _ _ _ _ _ _) as [m| |]; try discriminate.
      cbn [mbind outcome_bind bind].
      destruct (drawTree rand fuel _ _ _ _ _) as [s1| |] eqn:H1;
        try discriminate.
      rewrite (IH fuel' _ _ _ _ _ _ ltac:(lia) H1).
      cbn [mbind outcome_bind bind].
      apply IH. lia.
    + simpl. destruct (Z.gtb_spec depth 0); [lia|].
      intros <-. destruct fuel'; simpl;
        destruct (Z.gtb_spec depth 0); try lia; reflexivity.
Qed.

(** [drawTree] keeps the width and the height of the grid. *)
Lemma drawTree_grid_ok (w h : Z) (fuel : nat) :
  forall (x1 y1 : number) (angle depth : Z) (s s' : TreeState),
    grid_ok w h (tree_map s) ->
    drawTree rand fuel x1 y1 angle depth s = Ok s' ->
    grid_ok w h (tree_map s').
Proof.
  induction fuel as [|fuel IH]; intros x1 y1 angle depth s s' Hok.
  - simpl. destruct (depth >? 0); [discriminate|]. intros [= <-]. exact Hok.
  - destruct (Z_lt_le_dec 0 depth) as [Hpos|Hneg].
    + rewrite drawTree_unfold by exact Hpos. cbv zeta.
      destruct (drawLine _ _ _ _ _ _ _) as [m| |] eqn:Hm; try discriminate.
      cbn [mbind outcome_bind bind].
      destruct (drawTree rand fuel _ _ _ _ _) as [s1| |] eqn:H1;
        try discriminate.
      cbn [mbind outcome_bind bind].
      apply IH. cbn [tree_map].
      eapply IH; [|exact H1]. cbn [tree_map].
      eapply drawLine_grid_ok; eassumption.
    + simpl. destruct (Z.gtb_spec depth 0); [lia|].
      intros [= <-]. exact Hok.
Qed.

(** The fuel the constructor runs [drawTree] with is enough, and any
    larger amount gives the same result. *)
Lemma drawTree_fuel (fuel : nat) (x1 y1 : number) (angle depth : Z)
    (s : TreeState) :
  (Z.to_nat depth <= fuel)%nat ->
  drawTree rand fuel x1 y1 angle depth s
  = drawTree rand (Z.to_nat depth) x1 y1 angle depth s.
Proof.
  intros Hfuel.
  destruct (drawTree_spec (Z.to_nat depth) x1 y1 angle depth s (le_n _))
    as (s' & new & idxs & Hrun & _).
  rewrite Hrun. eapply drawTree_mono; eassumption.
Qed.

(** The constructor of [FractalTree] returns, for every depth. *)
Lemma newFractalTree_total (depth : Z) (m : BlockMap) :
  exists s, newFractalTree rand depth m = Ok s.
Proof.
  unfold newFractalTree.
  destruct (drawTree_spec (Z.to_nat depth) (of_Z 450) (of_Z 700) (-90) depth
              (mkTreeState m 0 []) (le_n _)) as (s' & new & idxs & Hrun & _).
  eauto.
Qed.

End TreeProperties.

(** * The statements of the specification *)

(** ** Reading and writing single cells *)

(** On a grid of height [h], [getBlock] at row [h] of a valid column
    returns [undefined]; it does not throw. *)
Lemma getBlock_at_height (w h : Z) (m : BlockMap) (x : Z) :
  grid_ok w h m -> 0 <= x < w -> getBlock m x h = Ok None.
Proof.
  intros Hok Hx. rewrite (getBlock_in_bounds w h) by (auto; lia).
  rewrite (cell_at_height w h) by exact Hok. reflexivity.
Qed.

(** On a grid of width [w], [getBlock] at column [w] runs off [undefined]:
    a TypeError, not the RangeError of the bounds check. *)
Lemma getBlock_at_width (w h : Z) (m : BlockMap) (y : Z) :
  grid_ok w h m -> getBlock m w y = Throw TypeError.
Proof.
  intros Hok. rewrite (getBlock_cases w h) by exact Hok.
  destruct (Z.ltb_spec w w); [lia|]. rewrite Z.eqb_refl, orb_true_r.
  reflexivity.
Qed.

(** Past the edge, [getBlock] throws the RangeError of its bounds check. *)
Lemma getBlock_past_edge (w h : Z) (m : BlockMap) (x y : Z) :
  grid_ok w h m ->
  (w < x -> getBlock m x y = Throw (RangeError "x is out of bounds")) /\
  (0 <= x < w -> h < y ->
   getBlock m x y = Throw (RangeError "y is out of bounds")).
Proof.
  intros Hok. split.
  - intros Hx. rewrite (getBlock_cases w h) by exact Hok.
    destruct (Z.ltb_spec w x); [reflexivity | lia].
  - intros Hx Hy. rewrite (getBlock_cases w h) by exact Hok.
    destruct (Z.ltb_spec w x); [lia|].
    destruct (Z.ltb_spec x 0); [lia|]. destruct (Z.eqb_spec x w); [lia|].
    simpl. destruct (Z.ltb_spec h y); [reflexivity | lia].
Qed.

(** C3, at the upper edge of the 2 by 2 grid: [getBlock(0, 2)] returns
    [undefined] and [getBlock(2, 0)] throws a TypeError; neither raises the
    bounds error, which only comes past the edge, while a read inside the
    grid returns. *)
Theorem getBlock_upper_edge :
  newBlockMap 2 2 = Ok grid22 /\
  getBlock grid22 0 2 = Ok None /\
  getBlock grid22 2 0 = Throw TypeError /\
  getBlock grid22 3 0 = Throw (RangeError "x is out of bounds") /\
  getBlock grid22 0 3 = Throw (RangeError "y is out of bounds") /\
  getBlock grid22 1 1 = Ok None.
Proof. repeat split. Qed.

(** A write left of, right of or above the grid changes nothing at all. *)
Lemma setBlock_clipped (w h : Z) (m : BlockMap) (x y t : Z)
    (c : option string) :
  grid_ok w h m -> x < 0 \/ w <= x \/ h <= y -> setBlock m x y t c = Ok m.
Proof.
  intros Hok Hout. rewrite setBlock_eq, (grid_ok_stores w h) by exact Hok.
  destruct (Z.leb_spec 0 x); destruct (Z.ltb_spec x w);
    destruct (Z.ltb_spec y h); simpl; try reflexivity; lia.
Qed.

(** A write at a negative row of a valid column is kept by the column as a
    property of its own, outside the cells of the grid. *)
Lemma setBlock_negative_row (w h : Z) (m : BlockMap) (x y t : Z)
    (c : option string) :
  grid_ok w h m -> 0 <= x < w -> y < 0 -> 0 <= h ->
  exists m', setBlock m x y t c = Ok m' /\
             getBlock m' x y = Ok (Some (mkBlock (default_color c) t)).
Proof.
  intros Hok Hx Hy Hh.
  destruct (setBlock_total m x y t c) as [m' Hm']. exists m'.
  split; [exact Hm'|].
  rewrite (getBlock_in_bounds w h) by
    (try lia; eapply setBlock_grid_ok; eassumption).
  rewrite (setBlock_cell _ _ _ _ _ _ Hm'), (grid_ok_stores w h) by exact Hok.
  rewrite !Z.eqb_refl.
  destruct (Z.leb_spec 0 x); destruct (Z.ltb_spec x w);
    destruct (Z.ltb_spec y h); simpl; try reflexivity; lia.
Qed.

(** C4: on a grid, [setBlock] at a position outside the bounds returns
    without throwing, keeps the grid a grid of the same size, and every
    cell inside the bounds reads as before. *)
Theorem setBlock_out_of_bounds (w h : Z) (m : BlockMap) (x y t : Z)
    (c : option string) :
  grid_ok w h m ->
  x < 0 \/ y < 0 \/ w <= x \/ h <= y ->
  exists m',
    setBlock m x y t c = Ok m' /\
    grid_ok w h m' /\
    forall i j, in_bounds w h i j ->
                cell m' i j = cell m i j /\ getBlock m' i j = getBlock m i j.
Proof.
  intros Hok Hout.
  destruct (setBlock_total m x y t c) as [m' Hm']. exists m'.
  assert (Hok' : grid_ok w h m') by (eapply setBlock_grid_ok; eassumption).
  split; [exact Hm'|]. split; [exact Hok'|].
  intros i j [Hi Hj].
  assert (Hcell : cell m' i j = cell m i j).
  { apply (setBlock_frame _ _ _ _ _ _ Hm'). intros [= -> ->]. lia. }
  split; [exact Hcell|].
  rewrite !(getBlock_in_bounds w h) by (auto; lia).
  rewrite Hcell. reflexivity.
Qed.

Lemma setBlock_out_of_bounds_witness :
  grid_ok 2 2 grid22 /\
  (1 < 0 \/ -1 < 0 \/ 2 <= 1 \/ 2 <= -1) /\
  exists m',
    setBlock grid22 1 (-1) 3 None = Ok m' /\
    grid_ok 2 2 m' /\
    forall i j, in_bounds 2 2 i j ->
                cell m' i j = cell grid22 i j /\
                getBlock m' i j = getBlock grid22 i j.
Proof.
  split; [exact grid22_ok|]. split; [lia|].
  apply (setBlock_out_of_bounds 2 2 grid22 1 (-1) 3 None);
    [exact grid22_ok | lia].
Defined.

(** C9: on a grid, [setBlock] at a position inside the bounds followed by
    [getBlock] at the same position returns a block with the colour and the
    thickness that were written. *)
Theorem setBlock_then_getBlock (w h : Z) (m : BlockMap) (x y t : Z)
    (c : option string) :
  grid_ok w h m ->
  in_bounds w h x y ->
  exists m' b,
    setBlock m x y t c = Ok m' /\
    getBlock m' x y = Ok (Some b) /\
    color b = default_color c /\ thickness b = t.
Proof.
  intros Hok [Hx Hy].
  destruct (setBlock_total m x y t c) as [m' Hm'].
  exists m', (mkBlock (default_color c) t).
  split; [exact Hm'|]. split; [|split; reflexivity].
  rewrite (getBlock_in_bounds w h) by
    (try lia; eapply setBlock_grid_ok; eassumption).
  rewrite (setBlock_cell _ _ _ _ _ _ Hm'), (grid_ok_stores w h) by exact Hok.
  rewrite !Z.eqb_refl.
  destruct (Z.leb_spec 0 x); destruct (Z.ltb_spec x w);
    destruct (Z.ltb_spec y h); simpl; try reflexivity; lia.
Qed.

Lemma setBlock_then_getBlock_witness :
  grid_ok 2 2 grid22 /\
  in_bounds 2 2 1 0 /\
  exists m' b,
    setBlock grid22 1 0 4 (Some "#ff0000"%string) = Ok m' /\
    getBlock m' 1 0 = Ok (Some b) /\
    color b = "#ff0000"%string /\ thickness b = 4.
Proof.
  split; [exact grid22_ok|]. split; [unfold in_bounds; lia|].
  apply (setBlock_then_getBlock 2 2 grid22 1 0 4 (Some "#ff0000"%string));
    [exact grid22_ok | unfold in_bounds; lia].
Defined.

(** ** Lines *)

(** The end cell of a line is not among the positions [drawLine] writes:
    it holds after the call what it held before. *)
Lemma drawLine_leaves_end (m : BlockMap) (x0 x1 y0 y1 t : Z)
    (c : option string) :
  exists m', drawLine m x0 x1 y0 y1 t c = Ok m' /\
             cell m' x1 y1 = cell m x1 y1.
Proof.
  destruct (drawLine_run_spec (line_steps x0 x1 y0 y1) m x0 x1 y0 y1 t c
              (le_n _)) as (m' & cells & Hrun & _ & _ & _ & Hend & _).
  exists m'. unfold drawLine. rewrite Hrun. split; [reflexivity|].
  rewrite (drawLine_effect _ _ _ _ _ _ _ _ _ Hrun).
  rewrite bool_decide_eq_false_2 by exact Hend. reflexivity.
Qed.

(** A line from a point to itself writes nothing. *)
Lemma drawLine_degenerate (m : BlockMap) (x y t : Z) (c : option string) :
  drawLine m x x y y t c = Ok m /\ drawLine_cells m x x y y t c = Ok [].
Proof.
  unfold drawLine, drawLine_cells, drawLine_run.
  rewrite drawLine_loop_stop. split; reflexivity.
Qed.

(** On a grid, the first cell of a line between two distinct points inside
    the bounds holds the line's block afterwards. *)
Lemma drawLine_paints_start (w h : Z) (m : BlockMap) (x0 x1 y0 y1 t : Z)
    (c : option string) :
  grid_ok w h m -> in_bounds w h x0 y0 -> (x0, y0) <> (x1, y1) ->
  exists m', drawLine m x0 x1 y0 y1 t c = Ok m' /\
             cell m' x0 y0 = Some (mkBlock (default_color c) t).
Proof.
  intros Hok [Hx Hy] Hne.
  destruct (drawLine_run_spec (line_steps x0 x1 y0 y1) m x0 x1 y0 y1 t c
              (le_n _)) as (m' & cells & Hrun & _ & [rest Hhd] & _).
  exists m'. unfold drawLine. rewrite Hrun. split; [reflexivity|].
  rewrite (drawLine_effect _ _ _ _ _ _ _ _ _ Hrun).
  assert (Hin : (x0, y0) ∈ cells).
  { destruct cells as [|p cells]; simpl in Hhd.
    - injection Hhd as Hx1 Hy1 _. congruence.
    - injection Hhd as -> _. apply list_elem_of_here. }
  rewrite bool_decide_eq_true_2 by exact Hin.
  rewrite (grid_ok_stores w h) by exact Hok.
  destruct (Z.leb_spec 0 x0); destruct (Z.ltb_spec x0 w);
    destruct (Z.ltb_spec y0 h); simpl; try reflexivity; lia.
Qed.

(** C1, on the line from (0, 0) to (4, 2) of a 5 by 5 grid: [drawLine]
    visits the four cells before the end, not the five of the whole path,
    and the end cell (4, 2) is still empty afterwards. *)
Theorem drawLine_omits_end_cell :
  newBlockMap 5 5 = Ok (sample_grid 5 5) /\
  drawLine_cells (sample_grid 5 5) 0 4 0 2 1 None
  = Ok [(0, 0); (1, 0); (2, 1); (3, 1)] /\
  (m' ← drawLine (sample_grid 5 5) 0 4 0 2 1 None; getBlock m' 4 2)
  = Ok None /\
  (m' ← drawLine (sample_grid 5 5) 0 4 0 2 1 None; getBlock m' 3 1)
  = Ok (Some (mkBlock "#000000" 1)).
Proof. vm_compute. repeat split. Qed.

(** C2, on the line from (2, 3) to (2, 3) of a 5 by 5 grid: [drawLine]
    visits no cell, and the cell (2, 3) is still empty afterwards. *)
Theorem drawLine_degenerate_paints_nothing :
  drawLine_cells (sample_grid 5 5) 2 2 3 3 1 None = Ok [] /\
  (m' ← drawLine (sample_grid 5 5) 2 2 3 3 1 None; getBlock m' 2 3)
  = Ok None.
Proof. vm_compute. repeat split. Qed.



(** ** The tree *)




(** C7: at depth 0, whatever the start point and the angle, [drawTree]
    returns at once, with no fuel for a recursive call: the map, the number
    of random draws and the log of [drawLine] calls are as they were. *)
Theorem drawTree_depth_zero {F : Floating} (rand : nat -> Q) (fuel : nat)
    (x1 y1 : number) (angle : Z) (s : TreeState) :
  drawTree rand fuel x1 y1 angle 0 s = Ok s.
Proof. destruct fuel; reflexivity. Qed.

(** Lines of depth 3 and more are black, whatever the draws. *)
Lemma branch_color_wood (rand : nat -> Q) (depth : Z) (i : nat) :
  3 <= depth -> branch_color rand depth i = "#000000"%string.
Proof.
  intros Hd. unfold branch_color.
  destruct (Z.ltb_spec depth 3); [lia | reflexivity].
Qed.

(** The colour of every line in the log: black from depth 3 on, and below
    depth 3 the hexadecimal numeral of a draw that no other line uses. *)
Lemma drawTree_colors {F : Floating} (rand : nat -> Q) (fuel : nat)
    (x1 y1 : number) (angle depth : Z) (s : TreeState) :
  (Z.to_nat depth <= fuel)%nat ->
  exists s' new idxs,
    drawTree rand fuel x1 y1 angle depth s = Ok s' /\
    lines s' = new ++ lines s /\
    NoDup idxs /\
    Forall2 (fun lc i =>
               (draws s <= i < draws s')%nat /\
               lc_color lc = branch_color rand (lc_thickness lc) i)
            new idxs.
Proof.
  intros Hfuel.
  destruct (drawTree_spec rand fuel x1 y1 angle depth s Hfuel)
    as (s' & new & idxs & Hrun & Hlines & _ & _ & _ & Hok & Hnd).
  exists s', new, idxs. repeat split; try assumption.
  eapply Forall2_impl; [exact Hok|].
  intros lc i (Ht & _ & Hi & Hc). rewrite Ht. split; assumption.
Qed.

(** C6, for the tree of depth 1 on a 900 by 700 grid when the first draw
    of [Math.random()] is 1/32: the trunk is drawn with the colour "#7ffff",
    five hexadecimal digits, and that is what its cells hold. *)
Theorem drawTree_short_color :
  (s ← @newFractalTree upward (fun _ => 1 # 32) 1 (sample_grid 900 700);
   Ok (List.map lc_color (lines s)))
  = Ok ["#7ffff"%string] /\
  (s ← @newFractalTree upward (fun _ => 1 # 32) 1 (sample_grid 900 700);
   getBlock (tree_map s) 450 699)
  = Ok (Some (mkBlock "#7ffff" 1)) /\
  is_hex6 "#7ffff" = false /\
  is_hex6 "#000000" = true.
Proof. vm_compute. repeat split. Qed.

(** * Further properties of the code *)

(** ** render *)

Lemma render_rows_run (w h : Z) (m : BlockMap) (i : Z) (n : nat) :
  grid_ok w h m -> 0 <= i < w ->
  forall (fuel : nat) (j : Z) (ctx : list CanvasOp),
    0 <= j -> j + Z.of_nat n = Z.max j h -> (n <= fuel)%nat ->
    render_rows fuel m i j ctx
    = Ok (ctx ++ flat_map (fun j => paint_ops m i j) (seqZ j (Z.of_nat n))).
Proof.
  intros (Hlen & Hin & Hout) Hi.
  destruct (Hin i Hi) as (col & Hcol & Hcl & _).
  induction n as [|n IH]; intros fuel j ctx Hj Hn Hfuel.
  - assert (h <= j) by lia.
    destruct fuel; cbn [render_rows]; rewrite Hcol; simpl; rewrite Hcl;
      (destruct (Z.ltb_spec j h); [lia|]); rewrite app_nil_r; reflexivity.
  - destruct fuel as [|fuel]; [lia|].
    cbn [render_rows]. rewrite Hcol. simpl. rewrite Hcl.
    destruct (Z.ltb_spec j h); [|lia].
    rewrite seqZ_cons by lia. cbn [flat_map].
    replace (Z.succ j) with (j + 1) by lia.
    replace (Z.pred (Z.of_nat (S n))) with (Z.of_nat n) by lia.
    rewrite (IH fuel (j + 1)) by lia.
    rewrite app_assoc. f_equal. f_equal.
    unfold paint_ops, cell. rewrite Hcol.
    destruct (JS.get col j) as [blk|]; [|rewrite app_nil_r; reflexivity].
    destruct (truthy_string (color blk)); [reflexivity|].
    rewrite app_nil_r; reflexivity.
Qed.

Lemma seqZ_to_nat (m h : Z) : seqZ m (Z.of_nat (Z.to_nat h)) = seqZ m h.
Proof. unfold seqZ. rewrite Nat2Z.id. reflexivity. Qed.

Lemma rows_of_grid (w h : Z) (m : BlockMap) (i : Z) :
  grid_ok w h m -> 0 <= i < w -> rows_of m i = Z.to_nat h.
Proof.
  intros (_ & Hin & _) Hi. destruct (Hin i Hi) as (col & Hcol & Hcl & _).
  unfold rows_of. rewrite Hcol, Hcl. reflexivity.
Qed.

Lemma render_columns_run (w h : Z) (m : BlockMap) (n : nat) :
  grid_ok w h m ->
  forall (fuel : nat) (i : Z) (ctx : list CanvasOp),
    0 <= i -> i + Z.of_nat n = Z.max i w -> (n <= fuel)%nat ->
    render_columns fuel m i ctx
    = Ok (ctx ++ flat_map
                   (fun i => flat_map (fun j => paint_ops m i j) (seqZ 0 h))
                   (seqZ i (Z.of_nat n))).
Proof.
  intros Hok. pose proof Hok as (Hlen & _).
  induction n as [|n IH]; intros fuel i ctx Hi Hn Hfuel.
  - assert (w <= i) by lia.
    destruct fuel; cbn [render_columns]; rewrite Hlen;
      (destruct (Z.ltb_spec i w); [lia|]); rewrite app_nil_r; reflexivity.
  - destruct fuel as [|fuel]; [lia|].
    cbn [render_columns]. rewrite Hlen.
    destruct (Z.ltb_spec i w); [|lia].
    rewrite (rows_of_grid w h) by (auto; lia).
    rewrite (render_rows_run w h m i (Z.to_nat h) Hok) by lia.
    rewrite seqZ_to_nat. cbn [mbind outcome_bind bind].
    rewrite (IH fuel (i + 1)) by lia.
    rewrite (seqZ_cons i) by lia. cbn [flat_map].
    replace (Z.succ i) with (i + 1) by lia.
    replace (Z.pred (Z.of_nat (S n))) with (Z.of_nat n) by lia.
    rewrite app_assoc. reflexivity.
Qed.

(** On a grid, [render] returns and makes the calls of [render_trace]. *)
Lemma render_grid (w h : Z) (m : BlockMap) (ctx : list CanvasOp) :
  grid_ok w h m -> render m ctx = Ok (ctx ++ render_trace w h m).
Proof.
  intros Hok. pose proof Hok as (Hlen & _).
  unfold render, render_trace. rewrite Hlen.
  rewrite (render_columns_run w h m (Z.to_nat w) Hok) by lia.
  rewrite seqZ_to_nat. reflexivity.
Qed.

Lemma elem_of_flat_map {A B : Type} (f : A -> list B) (l : list A) (b : B) :
  b ∈ flat_map f l <-> exists a, a ∈ l /\ b ∈ f a.
Proof.
  rewrite list_elem_of_In, in_flat_map. split.
  - intros (a & Ha & Hb). exists a. rewrite !list_elem_of_In. auto.
  - intros (a & Ha & Hb). exists a. rewrite <- !list_elem_of_In. auto.
Qed.

(** Which rectangles [render_trace] fills. *)
Lemma render_trace_fillRect (w h : Z) (m : BlockMap) (i j a b : Z) :
  FillRect i j a b ∈ render_trace w h m <->
  in_bounds w h i j /\
  exists blk, cell m i j = Some blk /\ truthy_string (color blk) = true /\
              a = thickness blk /\ b = thickness blk.
Proof.
  unfold render_trace. rewrite elem_of_flat_map. split.
  - intros (i' & Hi' & Hin). apply elem_of_flat_map in Hin as (j' & Hj' & Hin).
    apply elem_of_seqZ in Hi', Hj'. unfold paint_ops in Hin.
    destruct (cell m i' j') as [blk|] eqn:Hc; [|by apply elem_of_nil in Hin].
    destruct (truthy_string (color blk)) eqn:Ht; [|by apply elem_of_nil in Hin].
    apply elem_of_cons in Hin as [Hin|Hin]; [discriminate|].
    apply list_elem_of_singleton in Hin. injection Hin as -> -> -> ->.
    split; [unfold in_bounds; lia|]. exists blk. auto.
  - intros ([Hi Hj] & blk & Hc & Ht & -> & ->).
    exists i. split; [apply elem_of_seqZ; lia|].
    apply elem_of_flat_map. exists j. split; [apply elem_of_seqZ; lia|].
    unfold paint_ops. rewrite Hc, Ht. apply elem_of_cons. right.
    apply list_elem_of_here.
Qed.

(** ** The constructor, once more *)

Lemma fill_columns_empty (h : Z) (n : nat) :
  forall (i : Z) (a a' : JS.Array (JS.Array Block)),
    (forall x col, JS.get a x = Some col -> JS.elems col = ∅) ->
    fill_columns n i h a = Ok a' ->
    forall x col, JS.get a' x = Some col -> JS.elems col = ∅.
Proof.
  induction n as [|n IH]; intros i a a' Ha Hrun; simpl in Hrun.
  - injection Hrun as <-. exact Ha.
  - destruct (JS.new_Array h) as [c| |] eqn:Hc; try discriminate.
    apply new_Array_Ok in Hc as [_ ->].
    change (fill_columns n (i + 1) h (JS.set a i (JS.mkArray h ∅)) = Ok a')
      in Hrun.
    eapply (IH (i + 1)); [|exact Hrun].
    intros x col. destruct (Z.eq_dec x i) as [->|Hne].
    + rewrite get_set_eq. intros [= <-]. reflexivity.
    + rewrite get_set_ne by congruence. apply Ha.
Qed.

Lemma newBlockMap_cells (w h : Z) (m : BlockMap) :
  newBlockMap w h = Ok m -> forall x y, cell m x y = None.
Proof.
  unfold newBlockMap. intros Hrun x y.
  destruct (JS.new_Array w) as [a| |] eqn:Ha; try discriminate.
  apply new_Array_Ok in Ha as [Hw ->].
  change (bind (fun m' => Ok (mkBlockMap m'))
            (fill_columns (Z.to_nat w) 0 h (JS.mkArray w ∅)) = Ok m) in Hrun.
  destruct (fill_columns (Z.to_nat w) 0 h (JS.mkArray w ∅)) as [a'| |] eqn:Hf;
    try discriminate.
  injection Hrun as <-. unfold cell; simpl.
  destruct (JS.get a' x) as [col|] eqn:Hcol; [|reflexivity].
  assert (Hempty : forall x0 col0,
             JS.get (JS.mkArray w (∅ : gmap Z (JS.Array Block))) x0 = Some col0 ->
             JS.elems col0 = ∅).
  { intros x0 col0 H0. unfold JS.get in H0; simpl in H0.
    rewrite lookup_empty in H0. discriminate. }
  unfold JS.get.
  rewrite (fill_columns_empty h _ 0 _ _ Hempty Hf x col Hcol).
  apply lookup_empty.
Qed.

Lemma new_Array_invalid {A : Type} (n : Z) :
  n < 0 \/ 2 ^ 32 <= n ->
  @JS.new_Array A n = Throw (RangeError "Invalid array length").
Proof.
  intros Hn. unfold JS.new_Array.
  destruct (Z.leb_spec 0 n); destruct (Z.ltb_spec n (2 ^ 32)); simpl;
    try reflexivity; lia.
Qed.

(** ** setBlock, algebraically *)

Lemma set_set {A : Type} (a : JS.Array A) (k : Z) (v v' : A) :
  JS.set (JS.set a k v) k v' = JS.set a k v'.
Proof.
  unfold JS.set; simpl. f_equal.
  - destruct ((0 <=? k) && (k <? 2 ^ 32 - 1)); lia.
  - apply insert_insert_eq.
Qed.

Lemma set_comm {A : Type} (a : JS.Array A) (k k' : Z) (v v' : A) :
  k <> k' -> JS.set (JS.set a k v) k' v' = JS.set (JS.set a k' v') k v.
Proof.
  intros Hne. unfold JS.set; simpl. f_equal.
  - destruct ((0 <=? k) && (k <? 2 ^ 32 - 1));
      destruct ((0 <=? k') && (k' <? 2 ^ 32 - 1)); lia.
  - apply insert_insert_ne. congruence.
Qed.

Lemma stores_get (m : BlockMap) (x y : Z) :
  stores m x y = true -> exists col, JS.get (map m) x = Some col.
Proof.
  unfold stores. destruct (JS.get (map m) x) as [col|]; [eauto|discriminate].
Qed.

Lemma setBlock_stored (m : BlockMap) (x y t : Z) (c : option string)
    (col : JS.Array Block) :
  stores m x y = true -> JS.get (map m) x = Some col ->
  setBlock m x y t c
  = Ok (mkBlockMap
          (JS.set (map m) x (JS.set col y (mkBlock (default_color c) t)))).
Proof. intros Hst Hcol. rewrite setBlock_eq, Hst, Hcol. reflexivity. Qed.

Lemma setBlock_dropped (m : BlockMap) (x y t : Z) (c : option string) :
  stores m x y = false -> setBlock m x y t c = Ok m.
Proof. intros Hst. rewrite setBlock_eq, Hst. reflexivity. Qed.

(** X4: on every map, a second [setBlock] at the same position replaces
    the first: writing twice gives the very map that the second write
    alone gives. *)
Theorem setBlock_overwrite (m : BlockMap) (x y t1 t2 : Z)
    (c1 c2 : option string) :
  (m1 ← setBlock m x y t1 c1; setBlock m1 x y t2 c2) = setBlock m x y t2 c2.
Proof.
  destruct (setBlock_total m x y t1 c1) as [m1 H1]. rewrite H1.
  cbn [mbind outcome_bind bind].
  pose proof (setBlock_stores _ _ _ _ _ _ H1 x y) as Hst.
  destruct (stores m x y) eqn:Hs.
  - destruct (stores_get _ _ _ Hs) as [col Hcol].
    rewrite (setBlock_stored m x y t1 c1 col Hs Hcol) in H1.
    injection H1 as <-.
    rewrite (setBlock_stored _ x y t2 c2 _ Hst (get_set_eq _ _ _)).
    rewrite (setBlock_stored m x y t2 c2 col Hs Hcol).
    cbn [map]. rewrite !set_set. reflexivity.
  - rewrite (setBlock_dropped m x y t1 c1 Hs) in H1. injection H1 as <-.
    reflexivity.
Qed.

(** X5: on every map, two [setBlock] calls at different positions give the
    same map in either order. *)
Theorem setBlock_commute (m : BlockMap) (x1 y1 t1 x2 y2 t2 : Z)
    (c1 c2 : option string) :
  (x1, y1) <> (x2, y2) ->
  (m1 ← setBlock m x1 y1 t1 c1; setBlock m1 x2 y2 t2 c2)
  = (m2 ← setBlock m x2 y2 t2 c2; setBlock m2 x1 y1 t1 c1).
Proof.
  intros Hne.
  destruct (setBlock_total m x1 y1 t1 c1) as [m1 H1].
  destruct (setBlock_total m x2 y2 t2 c2) as [m2 H2].
  rewrite H1, H2. cbn [mbind outcome_bind bind].
  pose proof (setBlock_stores _ _ _ _ _ _ H1 x2 y2) as Hst12.
  pose proof (setBlock_stores _ _ _ _ _ _ H2 x1 y1) as Hst21.
  destruct (stores m x1 y1) eqn:Hs1; destruct (stores m x2 y2) eqn:Hs2.
  - destruct (stores_get _ _ _ Hs1) as [colA HcolA].
    destruct (stores_get _ _ _ Hs2) as [colB HcolB].
    rewrite (setBlock_stored m x1 y1 t1 c1 colA Hs1 HcolA) in H1.
    rewrite (setBlock_stored m x2 y2 t2 c2 colB Hs2 HcolB) in H2.
    injection H1 as <-. injection H2 as <-.
    destruct (Z.eq_dec x1 x2) as [->|Hx].
    + assert (y1 <> y2) by congruence.
      assert (colA = colB) as -> by congruence.
      rewrite (setBlock_stored _ x2 y2 t2 c2 _ Hst12 (get_set_eq _ _ _)).
      rewrite (setBlock_stored _ x2 y1 t1 c1 _ Hst21 (get_set_eq _ _ _)).
      cbn [map]. rewrite !set_set.
      rewrite (set_comm colB y1 y2) by assumption. reflexivity.
    + assert (HB : JS.get (JS.set (map m) x1
                      (JS.set colA y1 (mkBlock (default_color c1) t1))) x2
                   = Some colB)
        by (rewrite get_set_ne by congruence; exact HcolB).
      assert (HA : JS.get (JS.set (map m) x2
                      (JS.set colB y2 (mkBlock (default_color c2) t2))) x1
                   = Some colA)
        by (rewrite get_set_ne by congruence; exact HcolA).
      rewrite (setBlock_stored _ x2 y2 t2 c2 _ Hst12 HB).
      rewrite (setBlock_stored _ x1 y1 t1 c1 _ Hst21 HA).
      cbn [map]. rewrite (set_comm (map m) x1 x2) by assumption.
      reflexivity.
  - rewrite (setBlock_dropped m x2 y2 t2 c2 Hs2) in H2. injection H2 as <-.
    rewrite (setBlock_dropped m1 x2 y2 t2 c2 Hst12). symmetry. exact H1.
  - rewrite (setBlock_dropped m x1 y1 t1 c1 Hs1) in H1. injection H1 as <-.
    rewrite (setBlock_dropped m2 x1 y1 t1 c1 Hst21). exact H2.
  - rewrite (setBlock_dropped m x1 y1 t1 c1 Hs1) in H1. injection H1 as <-.
    rewrite (setBlock_dropped m x2 y2 t2 c2 Hs2) in H2. injection H2 as <-.
    rewrite (setBlock_dropped m x2 y2 t2 c2 Hs2).
    rewrite (setBlock_dropped m x1 y1 t1 c1 Hs1). reflexivity.
Qed.

Lemma setBlock_commute_witness :
  (0, 1) <> (1, 0) /\
  (m1 ← setBlock grid22 0 1 3 None; setBlock m1 1 0 4 (Some "#ff0000"%string))
  = (m2 ← setBlock grid22 1 0 4 (Some "#ff0000"%string);
     setBlock m2 0 1 3 None).
Proof.
  split; [congruence|].
  apply (setBlock_commute grid22 0 1 3 1 0 4 None (Some "#ff0000"%string)).
  congruence.
Defined.

(** ** drawLine, once more *)

(** A state of the loop lies between the start and the end on both axes. *)
Lemma line_inv_box (x1 y1 dx dy sx sy x y e : Z) (n : nat) :
  line_inv x1 y1 dx dy sx sy x y e n ->
  Z.of_nat n <= Z.max dx dy ->
  0 <= sx * (x1 - x) <= dx /\ 0 <= sy * (y1 - y) <= dy.
Proof.
  unfold line_inv, major_left; cbn [fst snd].
  intros (Hsx & Hsy & Hdx & Hdy & Hpos & He & Hn & Hb) Hle.
  set (rx := sx * (x1 - x)) in *. set (ry := sy * (y1 - y)) in *.
  clearbody rx ry. clear Hsx Hsy.
  destruct (Z.gtb_spec dx dy) as [Hgt|Hgt].
  - assert (0 <= rx <= dx) by lia. split; [assumption|].
    assert (0 <= rx * dy <= dx * dy) by nia.
    split.
    + destruct (Z_lt_le_dec ry 0); [|assumption].
      assert (ry * dx <= - dx) by nia. lia.
    + destruct (Z_lt_le_dec dy ry); [|assumption].
      assert ((dy + 1) * dx <= ry * dx) by nia. lia.
  - assert (0 <= ry <= dy) by lia. split; [|assumption].
    assert (0 <= ry * dx <= dy * dx) by nia.
    split.
    + destruct (Z_lt_le_dec rx 0); [|assumption].
      assert (rx * dy <= - dy) by nia. lia.
    + destruct (Z_lt_le_dec dx rx); [|assumption].
      assert ((dx + 1) * dy <= rx * dy) by nia. lia.
Qed.

Section LineStates.

Variables (x1 y1 dx dy sx sy : Z) (thickness : Z) (color : string).

(** Every position the loop visits is a state of the invariant. *)
Lemma drawLine_loop_states (n : nat) :
  forall (fuel : nat) (m : BlockMap) (x y e : Z) (m' : BlockMap) cells,
    line_inv x1 y1 dx dy sx sy x y e n ->
    drawLine_loop fuel m x x1 y y1 dx dy sx sy (e # 2) thickness color
    = Ok (m', cells) ->
    forall p, p ∈ cells ->
      exists e' k, (k <= n)%nat /\
                   line_inv x1 y1 dx dy sx sy (fst p) (snd p) e' k.
Proof.
  induction n as [|n IH]; intros fuel m x y e m' cells Hinv Hrun p Hp.
  - destruct (line_inv_done _ _ _ _ _ _ _ _ _ Hinv) as [-> ->].
    rewrite drawLine_loop_stop in Hrun. injection Hrun as _ <-.
    apply elem_of_nil in Hp as [].
  - destruct (line_inv_step _ _ _ _ _ _ _ _ _ _ Hinv) as (Hne & _ & Hnext).
    destruct fuel as [|fuel].
    + rewrite drawLine_loop_0 in Hrun.
      assert ((x =? x1) && (y =? y1) = false) as Hf.
      { destruct (Z.eqb_spec x x1); destruct (Z.eqb_spec y y1); simpl;
          try reflexivity. congruence. }
      rewrite Hf in Hrun. discriminate.
    + rewrite drawLine_loop_step in Hrun by exact Hne.
      destruct (setBlock_total m x y thickness (Some color)) as [m1 Hm1].
      rewrite Hm1 in Hrun. cbn [mbind outcome_bind bind] in Hrun.
      destruct (drawLine_loop fuel m1 _ _ _ _ _ _ _ _ _ _ _)
        as [[m2 cells2]| |] eqn:Hr; try discriminate.
      injection Hrun as _ <-.
      apply elem_of_cons in Hp as [->|Hp].
      * exists e, (S n). split; [lia | exact Hinv].
      * destruct (IH _ _ _ _ _ _ _ Hnext Hr p Hp) as (e' & k & Hk & Hinv').
        exists e', k. split; [lia | exact Hinv'].
Qed.


End LineStates.

Lemma drawLine_run_box (fuel : nat) (m m' : BlockMap) (x0 x1 y0 y1 t : Z)
    (c : option string) cells :
  drawLine_run fuel m x0 x1 y0 y1 t c = Ok (m', cells) ->
  forall i j, (i, j) ∈ cells ->
    Z.min x0 x1 <= i <= Z.max x0 x1 /\ Z.min y0 y1 <= j <= Z.max y0 y1.
Proof.
  unfold drawLine_run. intros Hrun i j Hin.
  destruct (decide ((x0, y0) = (x1, y1))) as [[= -> ->]|Hne].
  - rewrite drawLine_loop_stop in Hrun. injection Hrun as _ <-.
    apply elem_of_nil in Hin as [].
  - pose proof (line_inv_init x0 x1 y0 y1 Hne) as Hinv.
    assert (Herr :
      ((if Z.abs (x1 - x0) >? Z.abs (y1 - y0)
        then inject_Z (Z.abs (x1 - x0))
        else inject_Z (- Z.abs (y1 - y0))) / 2)%Q
      = (if Z.abs (x1 - x0) >? Z.abs (y1 - y0)
         then Z.abs (x1 - x0) else - Z.abs (y1 - y0)) # 2).
    { destruct (Z.abs (x1 - x0) >? Z.abs (y1 - y0)); apply Qhalf. }
    rewrite Herr in Hrun.
    destruct (drawLine_loop_states _ _ _ _ _ _ _ _ _ _ _ _ _ _ _ _
                Hinv Hrun (i, j) Hin) as (e' & k & Hk & Hinv').
    apply line_inv_box in Hinv'; [|unfold line_steps in Hk; lia].
    cbn [fst snd] in Hinv'.
    destruct (Z.ltb_spec x0 x1); destruct (Z.ltb_spec y0 y1); lia.
Qed.


(** X12: on a grid, a line between two points inside the bounds stays
    inside the bounds, and afterwards every position it visited holds the
    block of the line, whatever it held before; these are
    [max(|x1 - x0|, |y1 - y0|)] cells. *)
Theorem drawLine_inside (w h : Z) (m : BlockMap) (x0 x1 y0 y1 t : Z)
    (c : option string) :
  grid_ok w h m ->
  in_bounds w h x0 y0 ->
  in_bounds w h x1 y1 ->
  exists m' cells,
    drawLine m x0 x1 y0 y1 t c = Ok m' /\
    drawLine_cells m x0 x1 y0 y1 t c = Ok cells /\
    Z.of_nat (List.length cells) = Z.max (Z.abs (x1 - x0)) (Z.abs (y1 - y0)) /\
    NoDup cells /\
    forall i j, (i, j) ∈ cells ->
      in_bounds w h i j /\
      getBlock m' i j = Ok (Some (mkBlock (default_color c) t)).
Proof.
  intros Hok [Hx0 Hy0] [Hx1 Hy1].
  destruct (drawLine_run_spec (line_steps x0 x1 y0 y1) m x0 x1 y0 y1 t c
              (le_n _)) as (m' & cells & Hrun & Hlen & _ & _ & _ & Hnd).
  exists m', cells. unfold drawLine, drawLine_cells. rewrite Hrun.
  split; [reflexivity|]. split; [reflexivity|].
  split; [rewrite Hlen; unfold line_steps; lia|]. split; [exact Hnd|].
  intros i j Hin.
  destruct (drawLine_run_box _ _ _ _ _ _ _ _ _ _ Hrun i j Hin) as [Hi Hj].
  assert (Hb : in_bounds w h i j) by (unfold in_bounds; lia).
  split; [exact Hb|]. destruct Hb as [Hi' Hj'].
  assert (Hok' : grid_ok w h m').
  { unfold drawLine_run in Hrun. eapply drawLine_loop_grid_ok; eassumption. }
  rewrite (getBlock_in_bounds w h) by (auto; lia).
  rewrite (drawLine_effect _ _ _ _ _ _ _ _ _ Hrun).
  rewrite bool_decide_eq_true_2 by exact Hin.
  rewrite (grid_ok_stores w h) by exact Hok.
  destruct (Z.leb_spec 0 i); destruct (Z.ltb_spec i w);
    destruct (Z.ltb_spec j h); simpl; try reflexivity; lia.
Qed.

Lemma drawLine_inside_witness :
  grid_ok 2 2 grid22 /\ in_bounds 2 2 0 1 /\ in_bounds 2 2 1 0 /\
  exists m' cells,
    drawLine grid22 0 1 1 0 3 None = Ok m' /\
    drawLine_cells grid22 0 1 1 0 3 None = Ok cells /\
    Z.of_nat (List.length cells) = Z.max (Z.abs (1 - 0)) (Z.abs (0 - 1)) /\
    NoDup cells /\
    forall i j, (i, j) ∈ cells ->
      in_bounds 2 2 i j /\
      getBlock m' i j = Ok (Some (mkBlock (default_color None) 3)).
Proof.
  split; [exact grid22_ok|].
  split; [unfold in_bounds; lia|]. split; [unfold in_bounds; lia|].
  apply (drawLine_inside 2 2 grid22 0 1 1 0 3 None);
    [exact grid22_ok | unfold in_bounds; lia | unfold in_bounds; lia].
Defined.

(** One unfolding of the loop, with the next state written out. *)
Lemma drawLine_loop_next (x1 y1 dx dy sx sy t : Z) (c : string)
    (fuel : nat) (m : BlockMap) (x y : Z) (err : Q) :
  drawLine_loop (S fuel) m x x1 y y1 dx dy sx sy err t c =
  if negb ((x =? x1) && (y =? y1)) then
    m' ← setBlock m x y t (Some c);
    r ← drawLine_loop fuel m'
          (if Qltb (inject_Z (- dx)) err then x + sx else x) x1
          (if Qltb err (inject_Z dy) then y + sy else y) y1 dx dy sx sy
          (let e1 := if Qltb (inject_Z (- dx)) err
                     then (err - inject_Z dy)%Q else err in
           if Qltb err (inject_Z dy) then (e1 + inject_Z dx)%Q else e1)
          t c;
    Ok (fst r, (x, y) :: snd r)
  else Ok (m, []).
Proof.
  cbn [drawLine_loop].
  destruct (Qltb (inject_Z (- dx)) err); destruct (Qltb err (inject_Z dy));
    reflexivity.
Qed.

(** The positions the loop visits depend neither on the map nor on the
    thickness or the colour. *)
Lemma drawLine_loop_cells_any (x1 y1 dx dy sx sy : Z) (fuel : nat) :
  forall (m m0 : BlockMap) (t t0 : Z) (c c0 : string) (x y : Z) (err : Q)
         (m' : BlockMap) cells,
    drawLine_loop fuel m x x1 y y1 dx dy sx sy err t c = Ok (m', cells) ->
    exists m0',
      drawLine_loop fuel m0 x x1 y y1 dx dy sx sy err t0 c0 = Ok (m0', cells).
Proof.
  induction fuel as [|fuel IH]; intros m m0 t t0 c c0 x y err m' cells.
  - rewrite !drawLine_loop_0. destruct (negb _); [discriminate|].
    intros [= <- <-]. eauto.
  - rewrite !drawLine_loop_next. destruct (negb _).
    2: { intros [= <- <-]. eauto. }
    destruct (setBlock m x y t (Some c)) as [m1| |] eqn:Hm1; try discriminate.
    cbn [mbind outcome_bind bind].
    destruct (drawLine_loop fuel m1 _ _ _ _ _ _ _ _ _ _ _)
      as [[m2 cells2]| |] eqn:Hr; try discriminate.
    cbn [mbind outcome_bind bind fst snd]. intros [= <- <-].
    destruct (setBlock_total m0 x y t0 (Some c0)) as [m01 ->].
    cbn [mbind outcome_bind bind].
    destruct (IH m1 m01 t t0 c c0 _ _ _ _ _ Hr) as [m0' ->].
    eauto.
Qed.

(** X13: the positions [drawLine] visits depend on the end points only,
    not on the map it draws into, nor on the thickness or the colour. *)
Theorem drawLine_cells_any_map (m m0 : BlockMap) (x0 x1 y0 y1 t t0 : Z)
    (c c0 : option string) :
  drawLine_cells m x0 x1 y0 y1 t c = drawLine_cells m0 x0 x1 y0 y1 t0 c0.
Proof.
  destruct (drawLine_total m x0 x1 y0 y1 t c) as (m' & cells & _ & Hc & Hrun).
  rewrite Hc. unfold drawLine_cells, drawLine_run in *.
  destruct (drawLine_loop_cells_any _ _ _ _ _ _ _ _ m0 _ t0 _
              (default_color c0) _ _ _ _ _ Hrun) as [m0' ->].
  reflexivity.
Qed.


(** ** The grid a constructor call gives *)

(** X1: [new BlockMap(w, h)] with a width below [2^32] and, unless the
    width is 0, a height below [2^32] returns a grid of that width and
    height in which every position is empty; [getBlock] inside the bounds
    returns [undefined]. *)
Theorem newBlockMap_fresh (w h : Z) :
  0 <= w < 2 ^ 32 ->
  w = 0 \/ 0 <= h < 2 ^ 32 ->
  exists m,
    newBlockMap w h = Ok m /\
    grid_ok w h m /\
    (forall x y, cell m x y = None) /\
    (forall x y, in_bounds w h x y -> getBlock m x y = Ok None).
Proof.
  intros Hw Hh.
  assert (Hrun : exists m, newBlockMap w h = Ok m).
  { destruct Hh as [->|Hh]; [|apply newBlockMap_total; assumption].
    eexists. reflexivity. }
  destruct Hrun as [m Hrun]. exists m.
  pose proof (newBlockMap_grid_ok _ _ _ Hrun) as Hok.
  pose proof (newBlockMap_cells _ _ _ Hrun) as Hcells.
  split; [exact Hrun|]. split; [exact Hok|]. split; [exact Hcells|].
  intros x y [Hx Hy].
  rewrite (getBlock_in_bounds w h) by (auto; lia). rewrite Hcells.
  reflexivity.
Qed.

Lemma newBlockMap_fresh_witness :
  0 <= 2 < 2 ^ 32 /\
  (2 = 0 \/ 0 <= 2 < 2 ^ 32) /\
  exists m,
    newBlockMap 2 2 = Ok m /\
    grid_ok 2 2 m /\
    (forall x y, cell m x y = None) /\
    (forall x y, in_bounds 2 2 x y -> getBlock m x y = Ok None).
Proof.
  split; [lia|]. split; [right; lia|].
  apply (newBlockMap_fresh 2 2); [lia | right; lia].
Defined.

(** X2: [new BlockMap(w, h)] throws the RangeError of [new Array] when the
    width is negative or at least [2^32], and when the width is positive
    and the height is negative or at least [2^32]. *)
Theorem newBlockMap_invalid (w h : Z) :
  w < 0 \/ 2 ^ 32 <= w \/ (0 < w /\ (h < 0 \/ 2 ^ 32 <= h)) ->
  newBlockMap w h = Throw (RangeError "Invalid array length").
Proof.
  intros Hbad. unfold newBlockMap.
  destruct (Z_lt_le_dec w 0) as [Hneg|Hnn];
    [rewrite new_Array_invalid by lia; reflexivity|].
  destruct (Z_lt_le_dec w (2 ^ 32)) as [Hlt|Hge];
    [|rewrite new_Array_invalid by lia; reflexivity].
  rewrite new_Array_total by lia. cbn [mbind outcome_bind bind JS.length].
  assert (Hw : exists n, Z.to_nat w = S n) by (exists (Z.to_nat (w - 1)); lia).
  destruct Hw as [n ->]. cbn [fill_columns].
  rewrite new_Array_invalid by lia. reflexivity.
Qed.

Lemma newBlockMap_invalid_witness :
  (3 < 0 \/ 2 ^ 32 <= 3 \/ (0 < 3 /\ (-1 < 0 \/ 2 ^ 32 <= -1))) /\
  newBlockMap 3 (-1) = Throw (RangeError "Invalid array length").
Proof.
  split; [lia|]. apply (newBlockMap_invalid 3 (-1)). lia.
Defined.

(** X3: [setBlock] never throws, on any map and any integers, and it keeps
    a grid a grid of the same width and height. *)
Theorem setBlock_keeps_grid (m : BlockMap) (x y t : Z) (c : option string) :
  exists m',
    setBlock m x y t c = Ok m' /\
    forall w h, grid_ok w h m -> grid_ok w h m'.
Proof.
  destruct (setBlock_total m x y t c) as [m' Hm']. exists m'.
  split; [exact Hm'|]. intros w h Hok.
  eapply setBlock_grid_ok; eassumption.
Qed.

(** X6: on a grid of width [w] and height [h], [getBlock(x, y)] throws
    RangeError "x is out of bounds" when [x > w]; it throws a TypeError
    when [x < 0] or [x = w]; for [0 <= x < w] it throws RangeError "y is
    out of bounds" when [y > h], and otherwise returns what is stored at
    [(x, y)], also for a negative [y] and for [y = h]. *)
Theorem getBlock_on_grid (w h : Z) (m : BlockMap) (x y : Z) :
  grid_ok w h m ->
  getBlock m x y =
  if w <? x then Throw (RangeError "x is out of bounds")
  else if (x <? 0) || (x =? w) then Throw TypeError
  else if h <? y then Throw (RangeError "y is out of bounds")
  else Ok (cell m x y).
Proof. apply getBlock_cases. Qed.

Lemma getBlock_on_grid_witness :
  grid_ok 2 2 grid22 /\
  getBlock grid22 (-1) 0 =
  if 2 <? -1 then Throw (RangeError "x is out of bounds")
  else if (-1 <? 0) || (-1 =? 2) then Throw TypeError
  else if 2 <? 0 then Throw (RangeError "y is out of bounds")
  else Ok (cell grid22 (-1) 0).
Proof.
  split; [exact grid22_ok|].
  apply (getBlock_on_grid 2 2 grid22 (-1) 0). exact grid22_ok.
Defined.

(** X7: on a grid, [setBlock] at a negative row of a valid column is not
    dropped: the block is stored under that key, and [getBlock] at the same
    position returns it. *)
Theorem setBlock_stray_row (w h : Z) (m : BlockMap) (x y t : Z)
    (c : option string) :
  grid_ok w h m -> 0 <= x < w -> y < 0 -> 0 <= h ->
  exists m', setBlock m x y t c = Ok m' /\
             getBlock m' x y = Ok (Some (mkBlock (default_color c) t)).
Proof. apply setBlock_negative_row. Qed.

Lemma setBlock_stray_row_witness :
  grid_ok 2 2 grid22 /\ 0 <= 1 < 2 /\ -1 < 0 /\ 0 <= 2 /\
  exists m', setBlock grid22 1 (-1) 3 None = Ok m' /\
             getBlock m' 1 (-1) = Ok (Some (mkBlock (default_color None) 3)).
Proof.
  split; [exact grid22_ok|]. split; [lia|]. split; [lia|]. split; [lia|].
  apply (setBlock_stray_row 2 2 grid22 1 (-1) 3 None);
    [exact grid22_ok | lia | lia | lia].
Defined.

(** X8: on a grid, [setBlock] at a column left or right of the grid, or at
    a row at or above the height, returns the map it was given. *)
Theorem setBlock_outside (w h : Z) (m : BlockMap) (x y t : Z)
    (c : option string) :
  grid_ok w h m -> x < 0 \/ w <= x \/ h <= y -> setBlock m x y t c = Ok m.
Proof. apply setBlock_clipped. Qed.

Lemma setBlock_outside_witness :
  grid_ok 2 2 grid22 /\ (0 < 0 \/ 2 <= 0 \/ 2 <= 2) /\
  setBlock grid22 0 2 3 None = Ok grid22.
Proof.
  split; [exact grid22_ok|]. split; [lia|].
  apply (setBlock_outside 2 2 grid22 0 2 3 None); [exact grid22_ok | lia].
Defined.

(** ** What render paints *)

Lemma flat_map_nil {A B : Type} (f : A -> list B) (l : list A) :
  (forall a, a ∈ l -> f a = []) -> flat_map f l = [].
Proof.
  induction l as [|a l IH]; intros Hf; [reflexivity|].
  cbn [flat_map]. rewrite (Hf a) by apply list_elem_of_here.
  apply IH. intros b Hb. apply Hf. apply list_elem_of_further, Hb.
Qed.

Lemma flat_map_single {A B : Type} (f : A -> list B) (l : list A) (x : A) :
  NoDup l -> x ∈ l -> (forall a, a ∈ l -> a <> x -> f a = []) ->
  flat_map f l = f x.
Proof.
  induction l as [|a l IH]; intros Hnd Hx Hf.
  - apply elem_of_nil in Hx as [].
  - apply NoDup_cons in Hnd as [Ha Hnd]. cbn [flat_map].
    apply elem_of_cons in Hx as [->|Hx].
    + rewrite (flat_map_nil f l); [apply app_nil_r|].
      intros b Hb. apply Hf; [apply list_elem_of_further, Hb|].
      intros ->. contradiction.
    + rewrite (Hf a); [|apply list_elem_of_here|intros ->; contradiction].
      apply IH; [exact Hnd | exact Hx|].
      intros b Hb. apply Hf. apply list_elem_of_further, Hb.
Qed.





(** X17: a grid fresh from the constructor renders nothing: [render] makes
    no call on the context. *)
Theorem render_new_grid (w h : Z) (m : BlockMap) (ctx : list CanvasOp) :
  newBlockMap w h = Ok m -> render m ctx = Ok ctx.
Proof.
  intros Hnew.
  rewrite (render_grid w h) by (apply newBlockMap_grid_ok, Hnew).
  unfold render_trace.
  rewrite flat_map_nil; [rewrite app_nil_r; reflexivity|].
  intros i _. apply flat_map_nil. intros j _.
  unfold paint_ops. rewrite (newBlockMap_cells _ _ _ Hnew). reflexivity.
Qed.

Lemma render_new_grid_witness :
  newBlockMap 2 2 = Ok grid22 /\ render grid22 [] = Ok [].
Proof.
  split; [exact newBlockMap_2_2|].
  apply (render_new_grid 2 2 grid22 []). exact newBlockMap_2_2.
Defined.

(** X18: after one [setBlock] inside the bounds of a fresh grid, with a
    non-empty colour, [render] makes exactly the two calls for that cell. *)
Theorem render_one_block (w h : Z) (m : BlockMap) (x y t : Z) (c : string) :
  newBlockMap w h = Ok m ->
  in_bounds w h x y ->
  c <> EmptyString ->
  (m' ← setBlock m x y t (Some c); render m' [])
  = Ok [SetFillStyle c; FillRect x y t t].
Proof.
  intros Hnew [Hx Hy] Hc.
  pose proof (newBlockMap_grid_ok _ _ _ Hnew) as Hok.
  destruct (setBlock_total m x y t (Some c)) as [m' Hm']. rewrite Hm'.
  cbn [mbind outcome_bind bind].
  rewrite (render_grid w h) by (eapply setBlock_grid_ok; eassumption).
  cbn [app]. f_equal.
  assert (Hcell : forall i j,
             cell m' i j
             = if (i =? x) && (j =? y) then Some (mkBlock c t) else None).
  { intros i j. rewrite (setBlock_cell _ _ _ _ _ _ Hm').
    rewrite (grid_ok_stores w h) by exact Hok.
    rewrite (newBlockMap_cells _ _ _ Hnew).
    destruct (Z.leb_spec 0 x); destruct (Z.ltb_spec x w);
      destruct (Z.ltb_spec y h); try lia. reflexivity. }
  unfold render_trace.
  rewrite (flat_map_single _ _ x);
    [|apply NoDup_seqZ | apply elem_of_seqZ; lia|].
  - rewrite (flat_map_single _ _ y);
      [|apply NoDup_seqZ | apply elem_of_seqZ; lia|].
    + unfold paint_ops. rewrite Hcell, !Z.eqb_refl. cbn [andb color thickness].
      unfold truthy_string.
      destruct (String.eqb_spec c EmptyString); [contradiction|reflexivity].
    + intros j _ Hj. unfold paint_ops. rewrite Hcell.
      destruct (Z.eqb_spec j y); [contradiction|].
      rewrite andb_false_r. reflexivity.
  - intros i _ Hi. apply flat_map_nil. intros j _.
    unfold paint_ops. rewrite Hcell.
    destruct (Z.eqb_spec i x); [contradiction|]. reflexivity.
Qed.

Lemma render_one_block_witness :
  newBlockMap 2 2 = Ok grid22 /\ in_bounds 2 2 1 0 /\
  "#ff0000"%string <> EmptyString /\
  (m' ← setBlock grid22 1 0 4 (Some "#ff0000"%string); render m' [])
  = Ok [SetFillStyle "#ff0000"; FillRect 1 0 4 4].
Proof.
  split; [exact newBlockMap_2_2|]. split; [unfold in_bounds; lia|].
  split; [discriminate|].
  apply (render_one_block 2 2 grid22 1 0 4 "#ff0000"%string);
    [exact newBlockMap_2_2 | unfold in_bounds; lia | discriminate].
Defined.

(** X19: after one [drawLine] between two points inside the bounds of a
    fresh grid, with a non-empty colour, [render] fills exactly the
    rectangles of the positions the line visited, each with the thickness
    of the line; the end point of the line is not among them. *)
Theorem render_one_line (w h : Z) (m : BlockMap) (x0 x1 y0 y1 t : Z)
    (c : string) :
  newBlockMap w h = Ok m ->
  in_bounds w h x0 y0 ->
  in_bounds w h x1 y1 ->
  c <> EmptyString ->
  exists m' cells ops,
    drawLine m x0 x1 y0 y1 t (Some c) = Ok m' /\
    drawLine_cells m x0 x1 y0 y1 t (Some c) = Ok cells /\
    render m' [] = Ok ops /\
    (forall a b, FillRect x1 y1 a b ∉ ops) /\
    forall x y a b,
      FillRect x y a b ∈ ops <-> (x, y) ∈ cells /\ a = t /\ b = t.
Proof.
  intros Hnew [Hx0 Hy0] [Hx1 Hy1] Hc.
  pose proof (newBlockMap_grid_ok _ _ _ Hnew) as Hok.
  destruct (drawLine_run_spec (line_steps x0 x1 y0 y1) m x0 x1 y0 y1 t
              (Some c) (le_n _))
    as (m' & cells & Hrun & _ & _ & _ & Hend & _).
  assert (Hok' : grid_ok w h m').
  { unfold drawLine_run in Hrun. eapply drawLine_loop_grid_ok; eassumption. }
  exists m', cells, (render_trace w h m').
  unfold drawLine, drawLine_cells. rewrite Hrun.
  split; [reflexivity|]. split; [reflexivity|].
  split; [apply (render_grid w h m' [] Hok')|].
  assert (Hcell : forall i j,
             cell m' i j
             = if bool_decide ((i, j) ∈ cells) && stores m i j
               then Some (mkBlock c t) else None).
  { intros i j. rewrite (drawLine_effect _ _ _ _ _ _ _ _ _ Hrun).
    rewrite (newBlockMap_cells _ _ _ Hnew). reflexivity. }
  assert (Hiff : forall x y a b,
             FillRect x y a b ∈ render_trace w h m'
             <-> (x, y) ∈ cells /\ a = t /\ b = t).
  { intros x y a b. rewrite render_trace_fillRect. rewrite Hcell. split.
    - intros (_ & blk & Hblk & _ & -> & ->).
      destruct (bool_decide ((x, y) ∈ cells)) eqn:Hin; [|discriminate].
      apply bool_decide_eq_true_1 in Hin.
      destruct (stores m x y); [|discriminate].
      injection Hblk as <-. auto.
    - intros (Hin & -> & ->).
      destruct (drawLine_run_box _ _ _ _ _ _ _ _ _ _ Hrun x y Hin) as [Hx Hy].
      assert (Hb : in_bounds w h x y) by (unfold in_bounds; lia).
      split; [exact Hb|]. destruct Hb as [Hx' Hy'].
      exists (mkBlock c t).
      rewrite bool_decide_eq_true_2 by exact Hin.
      rewrite (grid_ok_stores w h) by exact Hok.
      destruct (Z.leb_spec 0 x); destruct (Z.ltb_spec x w);
        destruct (Z.ltb_spec y h); try lia.
      split; [reflexivity|]. split; [|split; reflexivity].
      unfold truthy_string; cbn [color].
      destruct (String.eqb_spec c EmptyString); [contradiction|reflexivity]. }
  split; [|exact Hiff].
  intros a b Hin. apply Hiff in Hin as [Hin _]. contradiction.
Qed.

Lemma render_one_line_witness :
  newBlockMap 2 2 = Ok grid22 /\ in_bounds 2 2 0 0 /\ in_bounds 2 2 1 1 /\
  "#ff0000"%string <> EmptyString /\
  exists m' cells ops,
    drawLine grid22 0 1 0 1 4 (Some "#ff0000"%string) = Ok m' /\
    drawLine_cells grid22 0 1 0 1 4 (Some "#ff0000"%string) = Ok cells /\
    render m' [] = Ok ops /\
    (forall a b, FillRect 1 1 a b ∉ ops) /\
    forall x y a b,
      FillRect x y a b ∈ ops <-> (x, y) ∈ cells /\ a = 4 /\ b = 4.
Proof.
  split; [exact newBlockMap_2_2|]. split; [unfold in_bounds; lia|].
  split; [unfold in_bounds; lia|]. split; [discriminate|].
  apply (render_one_line 2 2 grid22 0 1 0 1 4 "#ff0000"%string);
    [exact newBlockMap_2_2 | unfold in_bounds; lia | unfold in_bounds; lia
    | discriminate].
Defined.

(** ** Random numbers and colours *)

Lemma Qfloor_scale (r : Q) (k : Z) :
  (0 <= r)%Q -> (r < 1)%Q -> 0 < k ->
  0 <= Qfloor (r * inject_Z k) <= k - 1.
Proof.
  destruct r as [n d]. unfold Qle, Qlt, Qfloor, Qmult, inject_Z; simpl.
  intros H0 H1 Hk. rewrite Pos.mul_1_r.
  assert (0 <= n < Z.pos d) by lia.
  split.
  - apply Z.div_pos; nia.
  - assert (n * k / Z.pos d < k); [|lia].
    apply Z.div_lt_upper_bound; nia.
Qed.



Lemma is_hex_digit_hex_digit (d : Z) : is_hex_digit (hex_digit d) = true.
Proof.
  destruct d as [|p|p]; try reflexivity.
  do 4 (try (destruct p as [p|p|]; try reflexivity)).
Qed.

Lemma hex_digits_all (fuel : nat) :
  forall (n : Z) (acc : string),
    forallb is_hex_digit (list_ascii_of_string acc) = true ->
    forallb is_hex_digit (list_ascii_of_string (hex_digits fuel n acc)) = true.
Proof.
  induction fuel as [|fuel IH]; intros n acc Hacc; [exact Hacc|].
  cbn [hex_digits].
  assert (Hacc' : forallb is_hex_digit
                    (list_ascii_of_string (String (hex_digit (n mod 16)) acc))
                  = true).
  { cbn [list_ascii_of_string forallb].
    rewrite is_hex_digit_hex_digit. exact Hacc. }
  destruct (n / 16 =? 0); [exact Hacc' | apply IH, Hacc'].
Qed.

Lemma hex_digits_length (k : nat) :
  forall (fuel : nat) (n : Z) (acc : string),
    (k < fuel)%nat ->
    0 <= n < 16 ^ (Z.of_nat k + 1) ->
    k = 0%nat \/ 16 ^ Z.of_nat k <= n ->
    String.length (hex_digits fuel n acc) = (String.length acc + k + 1)%nat.
Proof.
  induction k as [|k IH]; intros fuel n acc Hfuel Hn Hlow;
    (destruct fuel as [|fuel]; [lia|]); cbn [hex_digits].
  - change (16 ^ (Z.of_nat 0 + 1)) with 16 in Hn.
    rewrite Z.div_small by lia. cbn. lia.
  - destruct Hlow as [Hk|Hlow]; [discriminate|].
    assert (Hpow : 16 ^ Z.of_nat (S k) = 16 * 16 ^ Z.of_nat k).
    { rewrite Nat2Z.inj_succ, Z.pow_succ_r by lia. reflexivity. }
    assert (Hpow' : 16 ^ (Z.of_nat (S k) + 1) = 16 * 16 ^ (Z.of_nat k + 1)).
    { replace (Z.of_nat (S k) + 1) with (Z.succ (Z.of_nat k + 1)) by lia.
      rewrite Z.pow_succ_r by lia. reflexivity. }
    assert (Hp : 0 < 16 ^ Z.of_nat k) by (apply Z.pow_pos_nonneg; lia).
    assert (Hq : 16 ^ Z.of_nat k <= n / 16)
      by (apply Z.div_le_lower_bound; lia).
    assert (Hr : n / 16 < 16 ^ (Z.of_nat k + 1))
      by (apply Z.div_lt_upper_bound; lia).
    destruct (Z.eqb_spec (n / 16) 0); [lia|].
    rewrite (IH fuel (n / 16)) by (auto; lia).
    cbn [String.length]. lia.
Qed.

Lemma toString16_length (n : Z) (k : nat) :
  0 <= n < 16 ^ (Z.of_nat k + 1) ->
  k = 0%nat \/ 16 ^ Z.of_nat k <= n ->
  String.length (toString16 n) = S k.
Proof.
  intros Hn Hlow. unfold toString16.
  destruct (Z.ltb_spec n 0); [lia|].
  rewrite (hex_digits_length k); [cbn; lia| |exact Hn|exact Hlow].
  destruct Hlow as [->|Hlow]; [lia|].
  assert (Hp : 0 < 16 ^ Z.of_nat k) by (apply Z.pow_pos_nonneg; lia).
  assert (H4 : 4 * Z.of_nat k <= Z.log2 n).
  { apply Z.log2_le_pow2; [lia|].
    rewrite Z.pow_mul_r by lia. exact Hlow. }
  lia.
Qed.

(** A number below [16^6] prints as six hexadecimal digits exactly when it
    is at least [16^5]. *)
Lemma toString16_six (n : Z) :
  0 <= n < 16777216 ->
  is_hex6 ("#" ++ toString16 n) = (1048576 <=? n).
Proof.
  intros Hn.
  change (is_hex6 ("#" ++ toString16 n))
    with ((String.length (toString16 n) =? 6)%nat
          && forallb is_hex_digit (list_ascii_of_string (toString16 n))).
  assert (Hall : forallb is_hex_digit (list_ascii_of_string (toString16 n))
                 = true).
  { unfold toString16. destruct (n <? 0) eqn:Hneg; [lia|].
    apply hex_digits_all. reflexivity. }
  rewrite Hall, andb_true_r.
  assert (Hlen : exists k : nat,
             (k <= 5)%nat /\ String.length (toString16 n) = S k /\
             (k = 5%nat <-> 1048576 <= n)).
  { destruct (Z_lt_le_dec n 16);
      [exists 0%nat; split; [lia|]; split;
         [apply toString16_length; simpl; [lia | auto] | lia]|].
    destruct (Z_lt_le_dec n 256);
      [exists 1%nat; split; [lia|]; split;
         [apply toString16_length; simpl; [lia | right; lia] | lia]|].
    destruct (Z_lt_le_dec n 4096);
      [exists 2%nat; split; [lia|]; split;
         [apply toString16_length; simpl; [lia | right; lia] | lia]|].
    destruct (Z_lt_le_dec n 65536);
      [exists 3%nat; split; [lia|]; split;
         [apply toString16_length; simpl; [lia | right; lia] | lia]|].
    destruct (Z_lt_le_dec n 1048576);
      [exists 4%nat; split; [lia|]; split;
         [apply toString16_length; simpl; [lia | right; lia] | lia]|].
    exists 5%nat; split; [lia|]; split;
      [apply toString16_length; simpl; [lia | right; lia] | lia]. }
  destruct Hlen as (k & Hk & -> & Hiff).
  destruct (Z.leb_spec 1048576 n) as [Hge|Hlt].
  - assert (k = 5%nat) as -> by (apply Hiff; exact Hge). reflexivity.
  - assert (k <> 5%nat) by (rewrite Hiff; lia).
    destruct (Nat.eqb_spec (S k) 6); [lia | reflexivity].
Qed.

Lemma shl0_small (q : Q) :
  (0 <= q)%Q -> Qfloor q < 2 ^ 31 -> shl0 q = Qfloor q.
Proof.
  intros H0 Hlt. unfold shl0, trunc.
  assert (Qle_bool 0 q = true) as -> by (apply Qle_bool_iff; exact H0).
  assert (0 <= Qfloor q).
  { change 0 with (Qfloor 0). apply Qfloor_resp_le. exact H0. }
  rewrite Z.mod_small by lia. lia.
Qed.

(** In the embedding, where the product is exact: a line of depth below 3
    whose draw [r] is in [0, 1) gets the
    colour ["#"] followed by the hexadecimal numeral of [floor(r *
    0xFFFFFF)], a number from 0 to [0xFFFFFE]; that colour has the form
    #RRGGBB exactly when the number is at least [0x100000].  A line of
    depth 3 or more is "#000000". *)
Lemma branch_color_cases (rand : nat -> Q) (depth : Z) (i : nat) :
  (0 <= rand i)%Q -> (rand i < 1)%Q ->
  let v := Qfloor (rand i * inject_Z 16777215) in
  0 <= v <= 16777214 /\
  (depth < 3 ->
   branch_color rand depth i = ("#" ++ toString16 v)%string /\
   is_hex6 (branch_color rand depth i) = (1048576 <=? v)) /\
  (3 <= depth -> branch_color rand depth i = "#000000"%string).
Proof.
  intros H0 H1 v.
  pose proof (Qfloor_scale (rand i) 16777215 H0 H1 ltac:(lia)) as Hv.
  fold v in Hv. split; [lia|]. unfold branch_color. split.
  - intros Hd. destruct (Z.ltb_spec depth 3); [|lia].
    assert (Hs : shl0 (rand i * inject_Z 16777215) = v).
    { apply shl0_small; [|fold v; lia].
      apply Qmult_le_0_compat; [exact H0|]. unfold Qle; simpl; lia. }
    rewrite Hs. split; [reflexivity|]. apply toString16_six. lia.
  - intros Hd. destruct (Z.ltb_spec depth 3); [lia | reflexivity].
Qed.

(** ** The structure of the tree *)

Section TreeStructure.

Context {F : Floating}.
Variable rand : nat -> Q.

Lemma drawTree_stop (fuel : nat) (x1 y1 : number) (angle depth : Z)
    (s : TreeState) :
  depth <= 0 -> drawTree rand fuel x1 y1 angle depth s = Ok s.
Proof.
  intros Hd. destruct fuel; simpl; destruct (Z.gtb_spec depth 0); try lia;
    reflexivity.
Qed.

(** With less fuel than the depth, [drawTree] does not return. *)
Lemma drawTree_short (fuel : nat) :
  forall (x1 y1 : number) (angle depth : Z) (s : TreeState),
    (fuel < Z.to_nat depth)%nat ->
    drawTree rand fuel x1 y1 angle depth s = OutOfFuel.
Proof.
  induction fuel as [|fuel IH]; intros x1 y1 angle depth s Hfuel.
  - simpl. destruct (Z.gtb_spec depth 0); [reflexivity | lia].
  - rewrite drawTree_unfold by lia. cbv zeta.
    match goal with
    | |- context [drawLine ?m ?a ?b ?c ?d ?t ?col] =>
        destruct (drawLine_total m a b c d t col) as (m' & _ & -> & _)
    end.
    cbn [mbind outcome_bind bind].
    rewrite IH by lia. reflexivity.
Qed.

(** The number of draws a run of [drawTree] makes. *)
Lemma drawTree_draws_run (fuel : nat) :
  forall (x1 y1 : number) (angle depth : Z) (s s' : TreeState),
    drawTree rand fuel x1 y1 angle depth s = Ok s' ->
    Z.of_nat (draws s') = Z.of_nat (draws s) + tree_draws depth.
Proof.
  induction fuel as [|fuel IH]; intros x1 y1 angle depth s s'.
  - simpl. destruct (Z.gtb_spec depth 0); [discriminate|].
    intros [= <-]. unfold tree_draws.
    destruct (Z.leb_spec depth 0); lia.
  - destruct (Z_lt_le_dec 0 depth) as [Hpos|Hneg].
    + rewrite drawTree_unfold by exact Hpos. cbv zeta.
      destruct (drawLine _ _ _ _ _ _ _) as [m| |]; try discriminate.
      cbn [mbind outcome_bind bind].
      destruct (drawTree rand fuel _ _ _ _ _) as [s1| |] eqn:H1;
        try discriminate.
      cbn [mbind outcome_bind bind]. intros H2.
      apply IH in H1. apply IH in H2. cbn [draws] in H1, H2.
      rewrite H2, Nat2Z.inj_succ, H1, Nat2Z.inj_succ.
      unfold tree_draws.
      destruct (Z.leb_spec depth 0); [lia|].
      destruct (Z.eqb_spec depth 1) as [->|Hd1].
      { simpl. lia. }
      destruct (Z.leb_spec (depth - 1) 0); [lia|].
      destruct (Z.eqb_spec (depth - 1) 1) as [Hd2|Hd2].
      { assert (depth = 2) as -> by lia. simpl. lia. }
      destruct (Z.ltb_spec depth 3); [lia|].
      replace (depth - 2) with (Z.succ (depth - 1 - 2)) by lia.
      rewrite Z.pow_succ_r by lia. lia.
    + rewrite drawTree_stop by exact Hneg. intros [= <-].
      unfold tree_draws. destruct (Z.leb_spec depth 0); lia.
Qed.

(** The log of a run: the first line logged starts at the rounded start
    point, and every other line continues a line of the same run. *)
Lemma drawTree_log (fuel : nat) :
  forall (x1 y1 : number) (angle depth : Z) (s s' : TreeState),
    drawTree rand fuel x1 y1 angle depth s = Ok s' ->
    exists new,
      lines s' = new ++ lines s /\
      (depth <= 0 -> new = []) /\
      (0 < depth ->
       exists rest root,
         new = rest ++ [root] /\
         lc_x0 root = round x1 /\ lc_y0 root = round y1 /\
         lc_depth root = depth /\ lc_thickness root = depth /\
         lc_color root = branch_color rand depth (draws s) /\
         forall lc, lc ∈ rest -> exists lp, lp ∈ new /\ continues lp lc).
Proof.
  induction fuel as [|fuel IH]; intros x1 y1 angle depth s s'.
  - simpl. destruct (Z.gtb_spec depth 0); [discriminate|].
    intros [= <-]. exists []. split; [reflexivity|]. split; [auto | lia].
  - destruct (Z_lt_le_dec 0 depth) as [Hpos|Hneg].
    2: { rewrite drawTree_stop by exact Hneg. intros [= <-]. exists [].
         split; [reflexivity|]. split; [auto | lia]. }
    rewrite drawTree_unfold by exact Hpos. cbv zeta.
    destruct (drawLine _ _ _ _ _ _ _) as [m| |]; try discriminate.
    cbn [mbind outcome_bind bind].
    destruct (drawTree rand fuel _ _ _ _ _) as [s1| |] eqn:H1;
      try discriminate.
    cbn [mbind outcome_bind bind]. intros H2.
    apply IH in H1 as (new1 & Hl1 & Hnil1 & Hsub1).
    apply IH in H2 as (new2 & Hl2 & Hnil2 & Hsub2).
    cbn [lines] in Hl1, Hl2.
    set (x2 := add x1 _) in *. set (y2 := add y1 _) in *.
    set (root := mkLineCall depth (round x1) (round x2) (round y1) (round y2)
                            depth (branch_color rand depth (draws s))) in *.
    exists (new2 ++ new1 ++ [root]).
    split. { rewrite Hl2, Hl1, <- !app_assoc. reflexivity. }
    split; [lia|]. intros _.
    exists (new2 ++ new1), root.
    split; [rewrite <- app_assoc; reflexivity|].
    do 5 (split; [reflexivity|]).
    assert (Hsub : forall new' (P : LineCall -> Prop),
               (depth - 1 <= 0 -> new' = []) ->
               (0 < depth - 1 ->
                exists rest' root',
                  new' = rest' ++ [root'] /\
                  lc_x0 root' = round x2 /\ lc_y0 root' = round y2 /\
                  lc_depth root' = depth - 1 /\ lc_thickness root' = depth - 1 /\
                  P root' /\
                  forall lc, lc ∈ rest' ->
                             exists lp, lp ∈ new' /\ continues lp lc) ->
               forall lc, lc ∈ new' ->
                 exists lp, (lp ∈ new' \/ lp = root) /\ continues lp lc).
    { intros new' P Hnil Hs lc Hlc.
      destruct (Z_lt_le_dec 0 (depth - 1)) as [Hd|Hd].
      - destruct (Hs Hd)
          as (rest' & root' & -> & Hx & Hy & Hdp & _ & _ & Hrest).
        apply elem_of_app in Hlc as [Hlc|Hlc].
        + destruct (Hrest lc Hlc) as (lp & Hlp & Hcont). eauto.
        + apply list_elem_of_singleton in Hlc as ->.
          exists root. split; [auto|].
          unfold continues. subst root. cbn. auto.
      - rewrite (Hnil Hd) in Hlc. apply elem_of_nil in Hlc as []. }
    intros lc [Hlc|Hlc]%elem_of_app.
    + destruct (Hsub new2 _ Hnil2 Hsub2 lc Hlc) as (lp & [Hlp | ->] & Hcont).
      * exists lp. split; [|exact Hcont]. apply elem_of_app. auto.
      * exists root. split; [|exact Hcont].
        rewrite !elem_of_app, list_elem_of_singleton. auto.
    + destruct (Hsub new1 _ Hnil1 Hsub1 lc Hlc) as (lp & [Hlp | ->] & Hcont).
      * exists lp. split; [|exact Hcont]. rewrite !elem_of_app. auto.
      * exists root. split; [|exact Hcont].
        rewrite !elem_of_app, list_elem_of_singleton. auto.
Qed.

End TreeStructure.

Section TreeRuns.

Context {F : Floating}.
Variable rand : nat -> Q.





(** X27: the constructor of [FractalTree] returns for every depth and
    every map.  It draws [2^depth - 1] lines (none for a depth of 0 or
    less), makes [tree_draws depth] draws and keeps a grid a grid; for a
    positive depth the first line it draws starts at the rounded point
    (450, 700) and has the depth as thickness. *)
Theorem newFractalTree_runs (depth : Z) (m : BlockMap) :
  exists s,
    newFractalTree rand depth m = Ok s /\
    Z.of_nat (List.length (lines s)) = 2 ^ Z.max 0 depth - 1 /\
    Z.of_nat (draws s) = tree_draws depth /\
    (forall w h, grid_ok w h m -> grid_ok w h (tree_map s)) /\
    (0 < depth ->
     exists rest trunk,
       lines s = rest ++ [trunk] /\
       lc_x0 trunk = round (of_Z 450) /\ lc_y0 trunk = round (of_Z 700) /\
       lc_thickness trunk = depth).
Proof.
  unfold newFractalTree.
  destruct (drawTree_spec rand (Z.to_nat depth) (of_Z 450) (of_Z 700) (-90)
              depth (mkTreeState m 0 []) (le_n _))
    as (s & new & idxs & Hrun & Hlines & Hlen & _).
  cbn [lines] in Hlines. rewrite app_nil_r in Hlines.
  exists s. split; [exact Hrun|].
  split; [rewrite Hlines; exact Hlen|].
  split; [apply (drawTree_draws_run rand _ _ _ _ _ _ _ Hrun)|].
  split.
  - intros w h Hok.
    eapply (drawTree_grid_ok rand w h); [|exact Hrun]. exact Hok.
  - intros Hpos.
    destruct (drawTree_log rand _ _ _ _ _ _ _ Hrun)
      as (new' & Hlines' & _ & Hsub).
    cbn [lines] in Hlines'. rewrite app_nil_r in Hlines'.
    destruct (Hsub Hpos) as (rest & root & -> & Hx & Hy & _ & Ht & _).
    exists rest, root. auto.
Qed.

End TreeRuns.






(** ** From the constructor to the canvas *)

Lemma branch_color_nonempty (rand : nat -> Q) (depth : Z) (i : nat) :
  branch_color rand depth i <> EmptyString.
Proof.
  unfold branch_color. destruct (depth <? 3); cbn; discriminate.
Qed.

Section TreeRender.

Context {F : Floating}.
Variable rand : nat -> Q.

(** A run of [drawTree] at a depth of at most [N] stores only blocks with
    a thickness from 1 to [N] and a non-empty colour. *)
Lemma drawTree_blocks (N : Z) (fuel : nat) :
  forall (x1 y1 : number) (angle depth : Z) (s s' : TreeState),
    depth <= N ->
    blocks_ok N (tree_map s) ->
    drawTree rand fuel x1 y1 angle depth s = Ok s' ->
    blocks_ok N (tree_map s').
Proof.
  induction fuel as [|fuel IH]; intros x1 y1 angle depth s s' HN Hok.
  - simpl. destruct (depth >? 0); [discriminate|]. intros [= <-]. exact Hok.
  - destruct (Z_lt_le_dec 0 depth) as [Hpos|Hneg].
    2: { rewrite drawTree_stop by exact Hneg. intros [= <-]. exact Hok. }
    rewrite drawTree_unfold by exact Hpos. cbv zeta.
    match goal with
    | |- context [drawLine ?m ?a ?b ?c ?d ?t ?col] =>
        destruct (drawLine_total m a b c d t col)
          as (m' & cells & -> & _ & Hrun)
    end.
    cbn [mbind outcome_bind bind].
    destruct (drawTree rand fuel _ _ _ _ _) as [s1| |] eqn:H1;
      try discriminate.
    cbn [mbind outcome_bind bind]. intros H2.
    eapply (IH _ _ _ (depth - 1)); [lia| |exact H2]. cbn [tree_map].
    eapply (IH _ _ _ (depth - 1)); [lia| |exact H1]. cbn [tree_map].
    intros i j blk. rewrite (drawLine_effect _ _ _ _ _ _ _ _ _ Hrun).
    destruct (bool_decide _ && stores (tree_map s) i j); [|apply Hok].
    intros [= <-]. cbn [thickness color default_color].
    split; [lia | apply branch_color_nonempty].
Qed.

(** X28: after [new FractalTree(depth, map)] on a grid fresh from the
    constructor, [render] returns; every rectangle it fills is a square at
    a position inside the bounds with a side from 1 to [depth], and every
    cell inside the bounds that the tree painted gets its square. *)
Theorem tree_then_render (w h depth : Z) (m : BlockMap) :
  newBlockMap w h = Ok m ->
  exists s ops,
    newFractalTree rand depth m = Ok s /\
    render (tree_map s) [] = Ok ops /\
    (forall x y a b, FillRect x y a b ∈ ops ->
                     in_bounds w h x y /\ a = b /\ 1 <= a <= depth) /\
    (forall x y, in_bounds w h x y -> is_Some (cell (tree_map s) x y) ->
                 exists a, FillRect x y a a ∈ ops).
Proof.
  intros Hnew. pose proof (newBlockMap_grid_ok _ _ _ Hnew) as Hok.
  destruct (newFractalTree_total rand depth m) as [s Hs].
  assert (Hok' : grid_ok w h (tree_map s)).
  { unfold newFractalTree in Hs.
    eapply (drawTree_grid_ok rand w h); [|exact Hs]. exact Hok. }
  assert (Hblocks : blocks_ok depth (tree_map s)).
  { unfold newFractalTree in Hs.
    eapply (drawTree_blocks depth); [|
      |exact Hs]; [lia|].
    intros i j blk. cbn [tree_map].
    rewrite (newBlockMap_cells _ _ _ Hnew). discriminate. }
  exists s, (render_trace w h (tree_map s)).
  split; [exact Hs|]. split; [apply (render_grid w h _ [] Hok')|].
  split.
  - intros x y a b Hin.
    apply render_trace_fillRect in Hin as (Hb & blk & Hc & _ & -> & ->).
    destruct (Hblocks _ _ _ Hc) as [Ht _]. auto.
  - intros x y Hb [blk Hc]. exists (thickness blk).
    apply render_trace_fillRect. split; [exact Hb|].
    exists blk. split; [exact Hc|]. split; [|auto].
    destruct (Hblocks _ _ _ Hc) as [_ Hne].
    unfold truthy_string.
    destruct (String.eqb_spec (color blk) EmptyString);
      [contradiction | reflexivity].
Qed.

End TreeRender.

Lemma newBlockMap_900_700 : newBlockMap 900 700 = Ok (sample_grid 900 700).
Proof. vm_compute. reflexivity. Qed.

Lemma tree_then_render_witness :
  newBlockMap 900 700 = Ok (sample_grid 900 700) /\
  exists s ops,
    @newFractalTree upward (fun _ => 1 # 2) 2 (sample_grid 900 700) = Ok s /\
    render (tree_map s) [] = Ok ops /\
    (forall x y a b, FillRect x y a b ∈ ops ->
                     in_bounds 900 700 x y /\ a = b /\ 1 <= a <= 2) /\
    (forall x y, in_bounds 900 700 x y ->
                 is_Some (cell (tree_map s) x y) ->
                 exists a, FillRect x y a a ∈ ops).
Proof.
  split; [exact newBlockMap_900_700|].
  apply (@tree_then_render upward (fun _ => 1 # 2) 900 700 2
           (sample_grid 900 700)).
  exact newBlockMap_900_700.
Defined.

(** ** Where the doubles are exact *)

Lemma floor_log2_small (q : Q) :
  (0 < q)%Q -> (q < inject_Z (2 ^ 52))%Q -> floor_log2 q <= 51.
Proof.
  intros Hpos Hlt. unfold floor_log2.
  destruct (Qle_bool (2 ^ (Z.log2 (Qnum q) - Z.log2 (Z.pos (Qden q)))) q)
    eqn:Hle.
  - apply Qle_bool_iff in Hle.
    assert (Hpow : (2 ^ (Z.log2 (Qnum q) - Z.log2 (Z.pos (Qden q)))
                    < 2 ^ 52)%Q).
    { eapply Qle_lt_trans; [exact Hle|].
      eapply Qlt_le_trans; [exact Hlt|].
      rewrite (Zpower_Qpower 2 52) by lia. apply Qle_refl. }
    apply Qpower_lt_compat_l_inv in Hpow; [lia | reflexivity].
  - destruct q as [n d]. unfold Qlt, inject_Z in Hpos, Hlt.
    cbn [Qnum Qden] in *.
    assert (Hn : 0 < n) by lia.
    assert (Hb : Z.log2 n <= Z.log2 (Z.pos d * 2 ^ 52)).
    { apply Z.log2_le_mono. lia. }
    rewrite Z.log2_mul_pow2 in Hb by lia. lia.
Qed.

Lemma round_half_even_Z (q : Q) (z : Z) :
  (q == inject_Z z)%Q -> round_half_even q = z.
Proof.
  intros Hq. unfold round_half_even.
  assert (Hf : Qfloor q = z).
  { rewrite (Qfloor_comp q (inject_Z z) Hq). apply Qfloor_Z. }
  rewrite Hf.
  assert (Hc : (q - inject_Z z ?= 1 # 2)%Q = Lt); [|rewrite Hc; reflexivity].
  apply Qlt_alt.
  assert (H0 : (q - inject_Z z == 0)%Q).
  { destruct q as [n d].
    unfold Qeq, Qminus, Qplus, Qopp, inject_Z in *. cbn [Qnum Qden] in *.
    lia. }
  apply (Qle_lt_trans _ 0); [|reflexivity].
  apply Qle_lteq. right. exact H0.
Qed.

Lemma Qpower2_neg (e : Z) :
  e <= 0 -> (2 ^ e == / inject_Z (2 ^ (- e)))%Q.
Proof.
  intros He. replace e with (- (- e)) at 1 by lia.
  rewrite Qpower_opp. apply Qinv_comp.
  symmetry. apply (Zpower_Qpower 2 (- e)). lia.
Qed.

Lemma fround_body (q : Q) (e k : Z) :
  e <= -1 -> (q == k # 2)%Q ->
  (inject_Z (round_half_even (q / 2 ^ e)) * 2 ^ e == k # 2)%Q.
Proof.
  intros He Hq.
  pose proof (Qpower2_neg e ltac:(lia)) as Hpow.
  assert (Hp : 2 ^ (- e) = 2 * 2 ^ (- e - 1)).
  { replace (- e) with (Z.succ (- e - 1)) at 1 by lia.
    apply Z.pow_succ_r. lia. }
  assert (Hpos : 0 < 2 ^ (- e - 1)) by (apply Z.pow_pos_nonneg; lia).
  set (M := 2 ^ (- e - 1)) in *. clearbody M.
  assert (Hdiv : (q / 2 ^ e == inject_Z (k * M))%Q).
  { unfold Qdiv. rewrite Hpow, Qinv_involutive, Hq, Hp.
    unfold Qeq, Qmult, inject_Z. cbn [Qnum Qden].
    change (Z.pos (2 * 1)) with 2. ring. }
  rewrite (round_half_even_Z _ _ Hdiv), Hpow, Hp.
  destruct M as [|M|M]; try lia.
  change (2 * Z.pos M) with (Z.pos M~0).
  unfold Qeq, Qmult, Qinv, inject_Z. cbn [Qnum Qden].
  lia.
Qed.

(** Rounding to a double leaves a half-integer below [2^52] as it is. *)
Lemma fround_half (q : Q) (k : Z) :
  (q == k # 2)%Q -> Z.abs k < 2 ^ 53 -> (fround q == k # 2)%Q.
Proof.
  intros Hq Hk. unfold fround.
  destruct (Qnum q) as [|n|n] eqn:Hn.
  - destruct q as [n d]. cbn [Qnum] in Hn. subst n.
    unfold Qeq in *. cbn [Qnum Qden] in *. lia.
  - apply fround_body; [|exact Hq].
    assert (floor_log2 (Qabs q) <= 51); [|lia].
    destruct q as [n' d]. cbn [Qnum] in Hn. subst n'.
    apply floor_log2_small; unfold Qlt, Qeq, Qabs, inject_Z in *;
      cbn [Qnum Qden Z.abs] in *; [lia|].
    assert (Z.abs k * Z.pos d < 2 ^ 53 * Z.pos d)
      by (apply Z.mul_lt_mono_pos_r; lia).
    nia.
  - apply fround_body; [|exact Hq].
    assert (floor_log2 (Qabs q) <= 51); [|lia].
    destruct q as [n' d]. cbn [Qnum] in Hn. subst n'.
    apply floor_log2_small; unfold Qlt, Qeq, Qabs, inject_Z in *;
      cbn [Qnum Qden Z.abs] in *; [lia|].
    assert (Z.abs k * Z.pos d < 2 ^ 53 * Z.pos d)
      by (apply Z.mul_lt_mono_pos_r; lia).
    nia.
Qed.

(** Rounding to a double leaves an integer below [2^52] as it is. *)
Lemma dbl_exact (z : Z) : Z.abs z < 2 ^ 52 -> dbl z = z.
Proof.
  intros Hz. unfold dbl.
  assert (H : (fround (inject_Z z) == inject_Z z)%Q).
  { assert (Hq : (inject_Z z == 2 * z # 2)%Q)
      by (unfold Qeq, inject_Z; cbn [Qnum Qden]; lia).
    rewrite (fround_half _ (2 * z) Hq) by lia.
    unfold Qeq, inject_Z; cbn [Qnum Qden]; lia. }
  rewrite (Qfloor_comp _ _ H). apply Qfloor_Z.
Qed.

Lemma Qltb_comp (a a' b b' : Q) :
  (a == a')%Q -> (b == b')%Q -> Qltb a b = Qltb a' b'.
Proof.
  intros Ha Hb. unfold Qltb. f_equal. apply Qleb_comp; assumption.
Qed.

Lemma Qhalf_sub_eq (q : Q) (e d : Z) :
  (q == e # 2)%Q -> (q - inject_Z d == (e - 2 * d) # 2)%Q.
Proof.
  intros Hq. destruct q as [n k].
  unfold Qeq, Qminus, Qplus, Qopp, inject_Z in *. cbn [Qnum Qden] in *.
  rewrite Pos.mul_1_r. nia.
Qed.

Lemma Qhalf_add_eq (q : Q) (e d : Z) :
  (q == e # 2)%Q -> (q + inject_Z d == (e + 2 * d) # 2)%Q.
Proof.
  intros Hq. destruct q as [n k].
  unfold Qeq, Qplus, inject_Z in *. cbn [Qnum Qden] in *.
  rewrite Pos.mul_1_r. nia.
Qed.

Section DoubleLine.

Variables (x1 y1 dx dy sx sy : Z) (thickness : Z) (color : string).

Hypothesis Hdx : dx <= 2 ^ 51.
Hypothesis Hdy : dy <= 2 ^ 51.
Hypothesis Hx1 : Z.abs x1 <= 2 ^ 50.
Hypothesis Hy1 : Z.abs y1 <= 2 ^ 50.

Lemma drawLine_double_loop_stop (fuel : nat) (m : BlockMap) (e : Q) :
  drawLine_double_loop fuel m x1 x1 y1 y1 dx dy sx sy e thickness color
  = Ok (m, []).
Proof.
  destruct fuel; simpl; rewrite !Z.eqb_refl; reflexivity.
Qed.

(** Within the safe range the loop on doubles does what the exact loop
    does: no addition or subtraction rounds. *)
Lemma drawLine_double_sim (n : nat) :
  forall (fuel : nat) (m : BlockMap) (x y e : Z) (err' : Q),
    line_inv x1 y1 dx dy sx sy x y e n ->
    Z.of_nat n <= Z.max dx dy ->
    (err' == e # 2)%Q ->
    drawLine_double_loop fuel m x x1 y y1 dx dy sx sy err' thickness color
    = drawLine_loop fuel m x x1 y y1 dx dy sx sy (e # 2) thickness color.
Proof.
  induction n as [|n IH]; intros fuel m x y e err' Hinv Hn Herr.
  - destruct (line_inv_done _ _ _ _ _ _ _ _ _ Hinv) as [-> ->].
    rewrite drawLine_double_loop_stop, drawLine_loop_stop. reflexivity.
  - destruct (line_inv_step _ _ _ _ _ _ _ _ _ _ Hinv) as (Hne & _ & Hnext).
    assert (Htest : negb ((x =? x1) && (y =? y1)) = true).
    { destruct (Z.eqb_spec x x1); destruct (Z.eqb_spec y y1); simpl;
        try reflexivity. congruence. }
    destruct fuel as [|fuel].
    + rewrite drawLine_loop_0. simpl. rewrite Htest. reflexivity.
    + rewrite drawLine_loop_step by exact Hne.
      cbn [drawLine_double_loop]. rewrite Htest.
      destruct (setBlock m x y thickness (Some color)) as [m1| |];
        [|reflexivity|reflexivity].
      cbn [mbind outcome_bind bind].
      rewrite (Qltb_comp _ (inject_Z (- dx)) err' (e # 2)
                 (Qeq_refl _) Herr).
      rewrite (Qltb_comp err' (e # 2) _ (inject_Z dy) Herr (Qeq_refl _)).
      rewrite Qltb_Z_half, Qltb_half_Z.
      replace (2 * - dx) with (- (2 * dx)) by lia.
      pose proof (line_inv_box _ _ _ _ _ _ _ _ _ _ Hnext ltac:(lia)) as Hbox.
      pose proof Hinv as (Hsx & Hsy & Hdx0 & Hdy0 & _ & _ & _ & Hb).
      pose proof Hnext as (_ & _ & _ & _ & _ & _ & _ & Hb').
      unfold next_x, next_y, next_e in *.
      assert (Hxs : Z.abs (x + sx) < 2 ^ 52 \/ (- (2 * dx) <? e) = false).
      { destruct (- (2 * dx) <? e); [left|right; reflexivity].
        destruct Hsx; subst sx; lia. }
      assert (Hys : Z.abs (y + sy) < 2 ^ 52 \/ (e <? 2 * dy) = false).
      { destruct (e <? 2 * dy); [left|right; reflexivity].
        destruct Hsy; subst sy; lia. }
      assert (Hbe : Z.abs e < 2 ^ 53 /\ Z.abs (e - 2 * dy) < 2 ^ 53 /\
                    Z.abs (e + 2 * dx) < 2 ^ 53 /\
                    Z.abs (e - 2 * dy + 2 * dx) < 2 ^ 53).
      { clear - Hb Hdx Hdy Hdx0 Hdy0.
        assert (H51 : 2 ^ 51 = 2251799813685248) by reflexivity.
        assert (H53 : 2 ^ 53 = 9007199254740992) by reflexivity.
        rewrite H51 in *. rewrite H53.
        destruct (dx >? dy); lia. }
      destruct Hbe as (Hb0 & Hb1 & Hb2 & Hb3).
      destruct (- (2 * dx) <? e) eqn:E1; destruct (e <? 2 * dy) eqn:E2.
      * destruct Hxs as [Hxs|]; [|discriminate].
        destruct Hys as [Hys|]; [|discriminate].
        rewrite !dbl_exact by assumption.
        erewrite IH; [reflexivity | exact Hnext | lia |].
        apply (fround_half _ (e - 2 * dy + 2 * dx)); [|exact Hb3].
        replace (e - 2 * dy + 2 * dx) with ((e - 2 * dy) + 2 * dx) by lia.
        apply Qhalf_add_eq. apply (fround_half _ (e - 2 * dy)); [|exact Hb1].
        apply Qhalf_sub_eq. exact Herr.
      * destruct Hxs as [Hxs|]; [|discriminate].
        rewrite !dbl_exact by assumption.
        erewrite IH; [reflexivity | exact Hnext | lia |].
        rewrite Z.add_0_r.
        apply (fround_half _ (e - 2 * dy)); [|exact Hb1].
        apply Qhalf_sub_eq. exact Herr.
      * destruct Hys as [Hys|]; [|discriminate].
        rewrite !dbl_exact by assumption.
        erewrite IH; [reflexivity | exact Hnext | lia |].
        rewrite Z.sub_0_r.
        apply (fround_half _ (e + 2 * dx)); [|exact Hb2].
        apply Qhalf_add_eq. exact Herr.
      * erewrite IH; [reflexivity | exact Hnext | lia |].
        rewrite Z.sub_0_r, Z.add_0_r. exact Herr.
Qed.

End DoubleLine.

(** For end points of magnitude up to [2^50], [drawLine] on doubles is
    [drawLine] as embedded on [Z] and [Q]. *)
Lemma drawLine_double_exact (fuel : nat) (m : BlockMap) (x0 x1 y0 y1 t : Z)
    (c : option string) :
  safe_coord x0 -> safe_coord x1 -> safe_coord y0 -> safe_coord y1 ->
  drawLine_double_run fuel m x0 x1 y0 y1 t c
  = drawLine_run fuel m x0 x1 y0 y1 t c.
Proof.
  unfold safe_coord. intros Hx0 Hx1 Hy0 Hy1.
  assert (H50 : 2 ^ 50 = 1125899906842624) by reflexivity.
  assert (H51 : 2 ^ 51 = 2251799813685248) by reflexivity.
  assert (H52 : 2 ^ 52 = 4503599627370496) by reflexivity.
  unfold drawLine_double_run, drawLine_run.
  rewrite !dbl_exact by lia.
  destruct (decide ((x0, y0) = (x1, y1))) as [[= -> ->]|Hne].
  - rewrite drawLine_double_loop_stop, drawLine_loop_stop. reflexivity.
  - pose proof (line_inv_init x0 x1 y0 y1 Hne) as Hinv.
    set (dx := Z.abs (x1 - x0)) in *. set (dy := Z.abs (y1 - y0)) in *.
    assert (Hdx : dx <= 2 ^ 51) by (subst dx; lia).
    assert (Hdy : dy <= 2 ^ 51) by (subst dy; lia).
    assert (Herr :
      ((if dx >? dy then inject_Z dx else inject_Z (- dy)) / 2)%Q
      = (if dx >? dy then dx else - dy) # 2).
    { destruct (dx >? dy); apply Qhalf. }
    rewrite Herr.
    apply (drawLine_double_sim x1 y1 dx dy _ _ t (default_color c)
             Hdx Hdy ltac:(lia) ltac:(lia) (line_steps x0 x1 y0 y1));
      [exact Hinv | unfold line_steps; fold dx dy; lia |].
    apply fround_half; [apply Qeq_refl|].
    destruct (dx >? dy); lia.
Qed.

(** ** Termination of drawLine *)

Lemma drawLine_double_stuck (fuel : nat) :
  drawLine_double_loop fuel (sample_grid 3 3)
    9007199254740992 9007199254740994 0 0 2 0 1 (-1)
    (4503599627370496 # 4503599627370496) 1 "#000000"
  = OutOfFuel.
Proof.
  induction fuel as [|fuel IH]; [reflexivity|].
  cbn [drawLine_double_loop].
  assert (Htest : negb ((9007199254740992 =? 9007199254740994) && (0 =? 0))
                  = true) by reflexivity.
  assert (Hset : setBlock (sample_grid 3 3) 9007199254740992 0 1
                   (Some "#000000"%string) = Ok (sample_grid 3 3))
    by (vm_compute; reflexivity).
  assert (Hlt1 : Qltb (inject_Z (Z.opp 2)) (4503599627370496 # 4503599627370496)
                 = true) by reflexivity.
  assert (Hlt2 : Qltb (4503599627370496 # 4503599627370496) (inject_Z 0)
                 = false) by reflexivity.
  assert (Herr : fround ((4503599627370496 # 4503599627370496) - inject_Z 0)
                 = 4503599627370496 # 4503599627370496)
    by (vm_compute; reflexivity).
  assert (Hx : dbl (9007199254740992 + 1) = 9007199254740992)
    by (vm_compute; reflexivity).
  rewrite Htest, Hset. cbn [mbind outcome_bind bind].
  rewrite Hlt1, Hlt2, Herr, Hx, IH. reflexivity.
Qed.

(** C8, where the claim fails: 2^53 and 2^53 + 2 are integers and doubles,
    but on doubles [2^53 + 1] rounds back to [2^53], so the loop of
    [drawLine] from (2^53, 0) to (2^53 + 2, 0) never leaves its first
    position: no number of steps lets it return. *)
Lemma drawLine_never_returns :
  dbl 9007199254740992 = 9007199254740992 /\
  dbl 9007199254740994 = 9007199254740994 /\
  ~ exists fuel r,
      drawLine_double_run fuel (sample_grid 3 3)
        9007199254740992 9007199254740994 0 0 1 None = Ok r.
Proof.
  split; [vm_compute; reflexivity|]. split; [vm_compute; reflexivity|].
  intros (fuel & r & Hrun). unfold drawLine_double_run in Hrun.
  cbv zeta in Hrun.
  assert (Hdx : Z.abs (dbl (9007199254740994 - 9007199254740992)) = 2)
    by (vm_compute; reflexivity).
  assert (Hdy : Z.abs (dbl (0 - 0)) = 0) by (vm_compute; reflexivity).
  rewrite Hdx, Hdy in Hrun.
  assert (Herr : fround ((if 2 >? 0 then inject_Z 2 else inject_Z (- 0)) / 2)
                 = 4503599627370496 # 4503599627370496)
    by (vm_compute; reflexivity).
  rewrite Herr in Hrun.
  change (if 9007199254740992 <? 9007199254740994 then 1 else -1) with 1
    in Hrun.
  change (if 0 <? 0 then 1 else -1) with (-1) in Hrun.
  change (default_color None) with "#000000"%string in Hrun.
  rewrite drawLine_double_stuck in Hrun. discriminate.
Qed.

(** C8, as the code has it: for integer end points of magnitude up to 2^50
    [drawLine], computed on doubles, terminates within
    [max(|x1 - x0|, |y1 - y0|) + 1] steps: it returns once the body has run
    [max(|x1 - x0|, |y1 - y0|)] times and not before, the test being
    evaluated once more, and allowing more steps changes nothing. *)
Theorem drawLine_terminates (m : BlockMap) (x0 x1 y0 y1 t : Z)
    (c : option string) :
  safe_coord x0 -> safe_coord x1 -> safe_coord y0 -> safe_coord y1 ->
  exists r,
    drawLine_double_run (S (line_steps x0 x1 y0 y1)) m x0 x1 y0 y1 t c
    = Ok r /\
    Z.of_nat (S (line_steps x0 x1 y0 y1))
    = Z.max (Z.abs (x1 - x0)) (Z.abs (y1 - y0)) + 1 /\
    Z.of_nat (List.length (snd r))
    = Z.max (Z.abs (x1 - x0)) (Z.abs (y1 - y0)) /\
    (forall fuel, (line_steps x0 x1 y0 y1 <= fuel)%nat ->
                  drawLine_double_run fuel m x0 x1 y0 y1 t c = Ok r) /\
    (forall fuel, (fuel < line_steps x0 x1 y0 y1)%nat ->
                  drawLine_double_run fuel m x0 x1 y0 y1 t c = OutOfFuel).
Proof.
  intros Hx0 Hx1 Hy0 Hy1.
  destruct (drawLine_run_spec (line_steps x0 x1 y0 y1) m x0 x1 y0 y1 t c
              (le_n _)) as (m' & cells & Hrun & Hlen & _).
  exists (m', cells).
  split.
  { rewrite drawLine_double_exact by assumption.
    rewrite drawLine_run_fuel by lia. exact Hrun. }
  split; [unfold line_steps; lia|].
  split; [cbn [snd]; rewrite Hlen; unfold line_steps; lia|].
  split.
  - intros fuel Hfuel. rewrite drawLine_double_exact by assumption.
    rewrite drawLine_run_fuel by exact Hfuel. exact Hrun.
  - intros fuel Hfuel. rewrite drawLine_double_exact by assumption.
    apply drawLine_run_short. exact Hfuel.
Qed.

Lemma safe_coord_small (z : Z) : Z.abs z <= 1000 -> safe_coord z.
Proof.
  intros Hz. unfold safe_coord.
  assert (H50 : 2 ^ 50 = 1125899906842624) by reflexivity. lia.
Qed.

Lemma drawLine_terminates_witness :
  safe_coord 0 /\ safe_coord 2 /\ safe_coord 0 /\ safe_coord 0 /\
  exists r,
    drawLine_double_run (S (line_steps 0 2 0 0)) (sample_grid 3 3) 0 2 0 0 1
      None = Ok r /\
    Z.of_nat (S (line_steps 0 2 0 0))
    = Z.max (Z.abs (2 - 0)) (Z.abs (0 - 0)) + 1 /\
    Z.of_nat (List.length (snd r)) = Z.max (Z.abs (2 - 0)) (Z.abs (0 - 0)) /\
    (forall fuel, (line_steps 0 2 0 0 <= fuel)%nat ->
                  drawLine_double_run fuel (sample_grid 3 3) 0 2 0 0 1 None
                  = Ok r) /\
    (forall fuel, (fuel < line_steps 0 2 0 0)%nat ->
                  drawLine_double_run fuel (sample_grid 3 3) 0 2 0 0 1 None
                  = OutOfFuel).
Proof.
  assert (H0 : safe_coord 0) by (apply safe_coord_small; simpl; lia).
  assert (H2 : safe_coord 2) by (apply safe_coord_small; simpl; lia).
  split; [exact H0|]. split; [exact H2|]. split; [exact H0|].
  split; [exact H0|].
  apply (drawLine_terminates (sample_grid 3 3) 0 2 0 0 1 None);
    assumption.
Defined.

(** X9: for integer end points of magnitude up to 2^50, where the doubles
    of the program are exact, and for every map, [drawLine] returns.  It
    visits [max(|x1 - x0|, |y1 - y0|)] positions, pairwise distinct; the
    first is the start, each next one is one of the eight neighbours of the
    one before, the end point is a neighbour of the last and is not itself
    visited. *)
Theorem drawLine_path (m : BlockMap) (x0 x1 y0 y1 t : Z) (c : option string) :
  safe_coord x0 -> safe_coord x1 -> safe_coord y0 -> safe_coord y1 ->
  exists m' cells,
    drawLine_double_run (line_steps x0 x1 y0 y1) m x0 x1 y0 y1 t c
    = Ok (m', cells) /\
    drawLine m x0 x1 y0 y1 t c = Ok m' /\
    drawLine_cells m x0 x1 y0 y1 t c = Ok cells /\
    Z.of_nat (List.length cells) = Z.max (Z.abs (x1 - x0)) (Z.abs (y1 - y0)) /\
    (exists rest, cells ++ [(x1, y1)] = (x0, y0) :: rest) /\
    chain8 (cells ++ [(x1, y1)]) /\
    ((x1, y1) ∉ cells) /\
    NoDup cells.
Proof.
  intros Hx0 Hx1 Hy0 Hy1.
  destruct (drawLine_run_spec (line_steps x0 x1 y0 y1) m x0 x1 y0 y1 t c
              (le_n _)) as (m' & cells & Hrun & Hlen & Hhd & Hch & Hend & Hnd).
  exists m', cells.
  split; [rewrite drawLine_double_exact by assumption; exact Hrun|].
  unfold drawLine, drawLine_cells. rewrite Hrun.
  split; [reflexivity|]. split; [reflexivity|].
  split; [rewrite Hlen; unfold line_steps; lia|].
  repeat split; assumption.
Qed.

Lemma drawLine_path_witness :
  safe_coord 0 /\ safe_coord 4 /\ safe_coord 0 /\ safe_coord 2 /\
  exists m' cells,
    drawLine_double_run (line_steps 0 4 0 2) (sample_grid 5 5) 0 4 0 2 1 None
    = Ok (m', cells) /\
    drawLine (sample_grid 5 5) 0 4 0 2 1 None = Ok m' /\
    drawLine_cells (sample_grid 5 5) 0 4 0 2 1 None = Ok cells /\
    Z.of_nat (List.length cells) = Z.max (Z.abs (4 - 0)) (Z.abs (2 - 0)) /\
    (exists rest, cells ++ [(4, 2)] = (0, 0) :: rest) /\
    chain8 (cells ++ [(4, 2)]) /\
    ((4, 2) ∉ cells) /\
    NoDup cells.
Proof.
  assert (H0 : safe_coord 0) by (apply safe_coord_small; simpl; lia).
  assert (H2 : safe_coord 2) by (apply safe_coord_small; simpl; lia).
  assert (H4 : safe_coord 4) by (apply safe_coord_small; simpl; lia).
  split; [exact H0|]. split; [exact H4|]. split; [exact H0|].
  split; [exact H2|].
  apply (drawLine_path (sample_grid 5 5) 0 4 0 2 1 None); assumption.
Defined.

(** ** Colours, with the product rounded *)

Lemma round_half_even_nonneg (q : Q) : (0 <= q)%Q -> 0 <= round_half_even q.
Proof.
  intros Hq. unfold round_half_even.
  assert (Hf : 0 <= Qfloor q).
  { change 0 with (Qfloor 0). apply Qfloor_resp_le. exact Hq. }
  destruct (q - inject_Z (Qfloor q) ?= 1 # 2)%Q; [|lia|lia].
  destruct (Z.even (Qfloor q)); lia.
Qed.

Lemma round_half_even_le (q : Q) (n : Z) :
  (q <= inject_Z n)%Q -> round_half_even q <= n.
Proof.
  intros Hq. unfold round_half_even.
  assert (Hf : Qfloor q <= n).
  { rewrite <- (Qfloor_Z n). apply Qfloor_resp_le. exact Hq. }
  destruct (Z.eq_dec (Qfloor q) n) as [He|Hne].
  - assert (Hc : (q - inject_Z (Qfloor q) ?= 1 # 2)%Q = Lt);
      [|rewrite Hc; lia].
    apply Qlt_alt. rewrite He.
    destruct q as [a d]. unfold Qle, Qlt, Qminus, Qplus, Qopp, inject_Z in *.
    cbn [Qnum Qden] in *. unfold Qcompare. cbn [Qnum Qden].
    apply Z.compare_lt_iff. rewrite ?Pos2Z.inj_mul. lia.
  - destruct (q - inject_Z (Qfloor q) ?= 1 # 2)%Q; [|lia|lia].
    destruct (Z.even (Qfloor q)); lia.
Qed.

(** Rounding to a double keeps a number between 0 and an integer below
    [2^52] in that range. *)
Lemma fround_range (q : Q) (k : Z) :
  (0 <= q)%Q -> (q <= inject_Z k)%Q -> k < 2 ^ 52 ->
  (0 <= fround q)%Q /\ (fround q <= inject_Z k)%Q.
Proof.
  intros H0 Hk Hlt. unfold fround.
  destruct (Qnum q) as [|n|n] eqn:Hn.
  - split; [apply Qle_refl|].
    apply (Qle_trans _ q); assumption.
  - set (e := Z.max (floor_log2 (Qabs q)) (-1022) - 52).
    assert (He : e <= -1).
    { assert (floor_log2 (Qabs q) <= 51); [|lia].
      destruct q as [n' d]. cbn [Qnum] in Hn. subst n'.
      apply floor_log2_small; unfold Qlt, Qle, Qabs, inject_Z in *;
        cbn [Qnum Qden Z.abs] in *; [lia|].
      assert (k * Z.pos d < 2 ^ 52 * Z.pos d)
        by (apply Z.mul_lt_mono_pos_r; lia).
      lia. }
    pose proof (Qpower2_neg e ltac:(lia)) as Hpow.
    assert (Hpos : 0 < 2 ^ (- e)) by (apply Z.pow_pos_nonneg; lia).
    set (M := 2 ^ (- e)) in *. clearbody M.
    assert (Hdiv : (q / 2 ^ e == q * inject_Z M)%Q).
    { unfold Qdiv. rewrite Hpow, Qinv_involutive. reflexivity. }
    assert (Hlo : 0 <= round_half_even (q / 2 ^ e)).
    { apply round_half_even_nonneg.
      apply (Qle_trans _ (q * inject_Z M));
        [|apply Qle_lteq; right; symmetry; exact Hdiv].
      clear - H0 Hpos.
      destruct q as [a d]. unfold Qle, Qmult, inject_Z in *.
      cbn [Qnum Qden] in *. nia. }
    assert (Hhi : round_half_even (q / 2 ^ e) <= k * M).
    { apply round_half_even_le.
      apply (Qle_trans _ (q * inject_Z M));
        [apply Qle_lteq; right; exact Hdiv|].
      clear - Hk Hpos.
      destruct q as [a d]. unfold Qle, Qmult, inject_Z in *.
      cbn [Qnum Qden] in *. rewrite ?Pos2Z.inj_mul. nia. }
    set (v := round_half_even (q / 2 ^ e)) in *. clearbody v.
    destruct M as [|M|M]; try lia.
    split.
    + unfold Qle, Qeq, Qmult, Qinv, inject_Z in *. cbn [Qnum Qden] in *.
      destruct (2 ^ e)%Q as [pn pd]. cbn [Qnum Qden] in *. nia.
    + unfold Qle, Qeq, Qmult, Qinv, inject_Z in *. cbn [Qnum Qden] in *.
      destruct (2 ^ e)%Q as [pn pd]. cbn [Qnum Qden] in *. nia.
  - destruct q as [n' d]. cbn [Qnum] in Hn. subst n'.
    unfold Qle in H0. cbn [Qnum Qden] in H0. lia.
Qed.

(** The colour made of a draw [r] in [0, 1), with the product rounded as
    the code rounds it: ["#"] followed by the hexadecimal numeral of a
    number [n] from 0 to [0xFFFFFF], which has the form #RRGGBB exactly when
    [n] is at least [0x100000]. *)
Lemma random_color_cases (r : Q) :
  (0 <= r)%Q -> (r < 1)%Q ->
  let n := Qfloor (fround (r * inject_Z 16777215)) in
  0 <= n <= 16777215 /\
  random_color r = ("#" ++ toString16 n)%string /\
  is_hex6 (random_color r) = (1048576 <=? n).
Proof.
  intros H0 H1 n.
  assert (Hp0 : (0 <= r * inject_Z 16777215)%Q).
  { apply Qmult_le_0_compat; [exact H0|]. unfold Qle; simpl; lia. }
  assert (Hp1 : (r * inject_Z 16777215 <= inject_Z 16777215)%Q).
  { clear - H1. destruct r as [a d]. unfold Qlt, Qle, Qmult, inject_Z in *.
    cbn [Qnum Qden] in *. rewrite ?Pos2Z.inj_mul. nia. }
  destruct (fround_range _ 16777215 Hp0 Hp1 ltac:(reflexivity)) as [Hf0 Hf1].
  assert (Hn : 0 <= n <= 16777215).
  { subst n. split.
    - change 0 with (Qfloor 0). apply Qfloor_resp_le. exact Hf0.
    - rewrite <- (Qfloor_Z 16777215). apply Qfloor_resp_le. exact Hf1. }
  assert (Hs : shl0 (fround (r * inject_Z 16777215)) = n).
  { apply shl0_small; [exact Hf0|]. fold n.
    assert (H31 : 2 ^ 31 = 2147483648) by reflexivity. lia. }
  split; [exact Hn|]. unfold random_color. rewrite Hs.
  split; [reflexivity|]. apply toString16_six. lia.
Qed.

(** A draw whose product is rounded up by the processor: the code makes
    ["#100000"] of it, the exact product would give ["#fffff"]. *)
Lemma random_color_rounds :
  let r := (281474993487873 # 4503599627370496)%Q in
  random_color r = "#100000"%string /\
  branch_color (fun _ => r) 1 0 = "#fffff"%string.
Proof. vm_compute. split; reflexivity. Qed.

(** X21: for a draw [r] in [0, 1), the colour
    ['#' + (r * 0xFFFFFF << 0).toString(16)], the product rounded to a
    double, is ["#"] followed by the hexadecimal numeral of a number [n]
    from 0 to [0xFFFFFF]; it has the form #RRGGBB exactly when [n] is at
    least [0x100000]. *)
Theorem random_color_format (r : Q) :
  (0 <= r)%Q -> (r < 1)%Q ->
  exists n,
    n = Qfloor (fround (r * inject_Z 16777215)) /\
    0 <= n <= 16777215 /\
    random_color r = ("#" ++ toString16 n)%string /\
    is_hex6 (random_color r) = (1048576 <=? n).
Proof.
  intros H0 H1. eexists. split; [reflexivity|].
  exact (random_color_cases r H0 H1).
Qed.

Lemma random_color_format_witness :
  (0 <= 1 # 2)%Q /\ (1 # 2 < 1)%Q /\
  exists n,
    n = Qfloor (fround ((1 # 2) * inject_Z 16777215)) /\
    0 <= n <= 16777215 /\
    random_color (1 # 2) = ("#" ++ toString16 n)%string /\
    is_hex6 (random_color (1 # 2)) = (1048576 <=? n).
Proof.
  assert (H0 : (0 <= 1 # 2)%Q) by (unfold Qle; simpl; lia).
  assert (H1 : (1 # 2 < 1)%Q) by reflexivity.
  split; [exact H0|]. split; [exact H1|].
  apply (random_color_format (1 # 2)); assumption.
Defined.

(** ** The tree, with the products rounded *)

Section TreeDoubleProperties.

Context {F : Floating}.
Variable rand : nat -> Q.




End TreeDoubleProperties.


